(** * Quantum circuit generators and the QAOA evaluator: model and properties

    A shallow embedding of [src/circuits/error_correction.py],
    [src/circuits/qaoa.py] and [src/circuits/qubit_routing.py].

    Circuits are the ordered instruction lists the generators append to a
    [QuantumCircuit]; Python exceptions are an error result; the arithmetic
    of angles and expectation values is written once over a numeric
    interface and read at the rationals (exact arithmetic), the reals
    (ideal simulation) and IEEE binary64 (the concrete examples). *)

From Stdlib Require Import ZArith List String Ascii Bool Lia Permutation.
From Stdlib Require Import QArith Qfield.
From Stdlib Require Import Reals Lra FunctionalExtensionality.
From Stdlib Require Import Floats.
Import ListNotations.

Local Close Scope Q_scope.
Local Close Scope R_scope.
Local Open Scope Z_scope.
Local Open Scope list_scope.

(* ================================================================== *)
(** ** Python values: exceptions, indexing, ranges *)

Module Py.

(** The exceptions the modelled functions can raise. *)
Inductive exn : Type :=
| IndexError
| ZeroDivisionError.

Inductive result (A : Type) : Type :=
| Ok (a : A)
| Raise (e : exn).
Arguments Ok {A} a.
Arguments Raise {A} e.

Definition bind {A B : Type} (m : result A) (k : A -> result B) : result B :=
  match m with
  | Ok a => k a
  | Raise e => Raise e
  end.

(** [s[i]] on a [str]: a negative index counts from the end, and an index
    outside [-len(s) .. len(s)-1] raises [IndexError]. *)
Definition str_getitem (s : string) (i : Z) : result ascii :=
  let n := Z.of_nat (String.length s) in
  let k := if i <? 0 then i + n else i in
  if (k <? 0) || (n <=? k) then Raise IndexError
  else match String.get (Z.to_nat k) s with
       | Some c => Ok c
       | None => Raise IndexError
       end.

(** [range(n)] as the list of the integers it yields. *)
Definition range (n : nat) : list Z := map Z.of_nat (seq 0 n).

(** [sum(xs)] over integers: a left fold starting from [0]. *)
Definition sum (xs : list Z) : Z := fold_left Z.add xs 0.

End Py.

Notation "x <- m ;; k" := (Py.bind m (fun x => k))
  (at level 61, m at next level, right associativity).

(* ================================================================== *)
(** ** Numbers

    The source computes with Python numbers ([int] literals mixed with
    [float] parameters).  [of_int] is the coercion Python applies to an
    [int] operand; [add], [mul] and [div] are [+], [*] and [/] on an
    operand pair already coerced. *)

Class Num (R : Type) : Type := {
  of_int : Z -> R;
  add : R -> R -> R;
  mul : R -> R -> R;
  div : R -> R -> R
}.

#[export] Instance Num_Q : Num Q := {
  of_int := inject_Z;
  add := Qplus;
  mul := Qmult;
  div := Qdiv
}.

#[export] Instance Num_R : Num R := {
  of_int := IZR;
  add := Rplus;
  mul := Rmult;
  div := Rdiv
}.

(** An [int] converted to binary64, rounded to nearest even. *)
Definition float_of_int (z : Z) : float :=
  SF2Prim (SpecFloat.binary_normalize FloatOps.prec FloatOps.emax z 0 false).

#[export] Instance Num_float : Num float := {
  of_int := float_of_int;
  add := PrimFloat.add;
  mul := PrimFloat.mul;
  div := PrimFloat.div
}.

(* ================================================================== *)
(** ** The circuit object the generators build

    A circuit is its register sizes, its name and the instructions appended
    so far, in order.  The methods of this module record what a builder
    method appends once the circuit library has accepted its operands; the
    checks the library runs before it appends are in [Checked] below. *)

Module Circuit.
Section WithNum.

Context {R : Type}.

(** One appended instruction, named after the [QuantumCircuit] method
    that appends it; operands are qubit (and classical bit) indices. *)
Inductive Instruction : Type :=
| HGate (q : Z)
| CXGate (control target : Z)
| CCXGate (control1 control2 target : Z)
| CUGate (theta phi lam gamma : R) (control target : Z)
| UGate (theta phi lam : R) (q : Z)
| RXGate (theta : R) (q : Z)
| Measure (q c : Z)
| Barrier (qs : list Z).

Record QuantumCircuit : Type := mkCircuit {
  num_qubits : nat;
  num_clbits : nat;
  name : option string;
  data : list Instruction
}.

(** [QuantumCircuit(n, m)] and [QuantumCircuit(QuantumRegister(n), name=s)]. *)
Definition new (n m : nat) (name : option string) : QuantumCircuit :=
  mkCircuit n m name [].

Definition append (g : Instruction) (qc : QuantumCircuit) : QuantumCircuit :=
  mkCircuit (num_qubits qc) (num_clbits qc) (name qc) (data qc ++ [g]).

(** A method called with [range(...)] arguments appends one instruction
    per element, in order. *)
Definition broadcast {A : Type} (g : A -> Instruction) (xs : list A)
    (qc : QuantumCircuit) : QuantumCircuit :=
  fold_left (fun c x => append (g x) c) xs qc.

Definition h (qs : list Z) := broadcast HGate qs.
Definition cx (c t : Z) := append (CXGate c t).
Definition ccx (c1 c2 t : Z) := append (CCXGate c1 c2 t).
Definition cu (theta phi lam gamma : R) (c t : Z) :=
  append (CUGate theta phi lam gamma c t).
Definition u (theta phi lam : R) (q : Z) := append (UGate theta phi lam q).
Definition rx (theta : R) (qs : list Z) := broadcast (RXGate theta) qs.
Definition measure (qs cs : list Z) :=
  broadcast (fun qc => Measure (fst qc) (snd qc)) (combine qs cs).

(** [qc.barrier()] without arguments spans every qubit of the circuit. *)
Definition barrier (qc : QuantumCircuit) : QuantumCircuit :=
  append (Barrier (Py.range (num_qubits qc))) qc.

End WithNum.
Arguments Instruction R : clear implicits.
Arguments QuantumCircuit R : clear implicits.
End Circuit.

(* ================================================================== *)
(** ** [class QuantumErrorCorrection] *)

Module QuantumErrorCorrection.
Section WithNum.
Import Circuit.
Context {R : Type}.

Definition create_encoder : QuantumCircuit R :=
  let qc := new 3 0 (Some "encoder"%string) in
  let qc := cx 0 1 qc in
  let qc := cx 0 2 qc in
  qc.

Definition create_single_error_decoder : QuantumCircuit R :=
  let qc := new 3 0 (Some "single_error_decoder"%string) in
  (* Syndrome measurement using CNOTs *)
  let qc := cx 0 1 qc in
  let qc := cx 0 2 qc in
  (* Error correction using CCX (Toffoli) gates *)
  let qc := ccx 1 2 0 qc in
  let qc := ccx 2 0 1 qc in
  let qc := ccx 0 1 2 qc in
  qc.

Definition create_double_error_decoder : QuantumCircuit R :=
  let qc := new 9 0 (Some "double_error_decoder"%string) in
  (* Syndrome measurement *)
  let qc := cx 0 5 qc in
  let qc := cx 1 5 qc in
  let qc := cx 1 6 qc in
  let qc := cx 2 6 qc in
  let qc := cx 2 7 qc in
  let qc := cx 3 7 qc in
  let qc := cx 3 8 qc in
  let qc := cx 4 8 qc in
  (* Error correction logic *)
  let qc := ccx 5 7 1 qc in
  let qc := ccx 6 8 3 qc in
  let qc := ccx 5 6 0 qc in
  let qc := ccx 6 7 2 qc in
  let qc := ccx 7 8 4 qc in
  qc.

End WithNum.
End QuantumErrorCorrection.

(* ================================================================== *)
(** ** [class QAOA] *)

Module QAOA.
Section WithNum.
Import Circuit.
Context {R : Type} {N : Num R}.

(** [(node1, node2, weight)] *)
Definition Edge : Type := (Z * Z * R)%type.

Record t : Type := mk { n_qubits : nat }.

(** The three instructions the problem-unitary loop appends for one edge. *)
Definition edge_step (gamma : R) (edge : Edge) (qc : QuantumCircuit R)
    : QuantumCircuit R :=
  let '(k, l, weight) := edge in
  let qc := cu (of_int 0) (of_int 0) (mul (mul (of_int (-2)) gamma) weight)
               (of_int 0) k l qc in
  let qc := u (of_int 0) (of_int 0) (mul gamma weight) k qc in
  let qc := u (of_int 0) (of_int 0) (mul gamma weight) l qc in
  qc.

(** The instructions the method records, call by call, on operands the
    circuit library accepts; [Checked.create_qaoa_circuit] below is the
    method with the library's checks and its [CircuitError]. *)
Definition create_qaoa_circuit (self : t) (graph_edges : list Edge)
    (gamma beta : R) : QuantumCircuit R :=
  let qc := new (n_qubits self) (n_qubits self) None in
  (* Initial state superposition *)
  let qc := h (Py.range (n_qubits self)) qc in
  let qc := barrier qc in
  (* Problem unitary *)
  let qc := fold_left (fun c edge => edge_step gamma edge c) graph_edges qc in
  (* Mixing unitary *)
  let qc := barrier qc in
  let qc := rx (mul (of_int 2) beta) (Py.range (n_qubits self)) qc in
  (* Measurement *)
  let qc := measure (Py.range (n_qubits self)) (Py.range (n_qubits self)) qc in
  qc.

(** The inner loop of [compute_expectation]: the cost of one bitstring.
    Both endpoint characters are fetched before they are compared. *)
Fixpoint cut_cost (bitstring : string) (graph_edges : list Edge) (cost : R)
    : Py.result R :=
  match graph_edges with
  | [] => Py.Ok cost
  | (i, j, weight) :: rest =>
      bi <- Py.str_getitem bitstring i ;;
      bj <- Py.str_getitem bitstring j ;;
      cut_cost bitstring rest
        (if Ascii.eqb bi bj then cost else add cost weight)
  end.

(** [x / total_shots] with an [int] divisor. *)
Definition true_div (x : R) (d : Z) : Py.result R :=
  if d =? 0 then Py.Raise Py.ZeroDivisionError
  else Py.Ok (div x (of_int d)).

(** The outer loop over [counts.items()], in the dictionary's order. *)
Fixpoint expectation_loop (items : list (string * Z)) (graph_edges : list Edge)
    (total_shots : Z) (expectation : R) : Py.result R :=
  match items with
  | [] => Py.Ok expectation
  | (bitstring, count) :: rest =>
      cost <- cut_cost bitstring graph_edges (of_int 0) ;;
      term <- true_div (mul cost (of_int count)) total_shots ;;
      expectation_loop rest graph_edges total_shots (add expectation term)
  end.

(** [counts] is the dictionary as its item list (keys distinct, in
    insertion order). *)
Definition compute_expectation (counts : list (string * Z))
    (graph_edges : list Edge) : Py.result R :=
  let total_shots := Py.sum (map snd counts) in
  expectation_loop counts graph_edges total_shots (of_int 0).

End WithNum.
Arguments Edge R : clear implicits.
End QAOA.

(* ================================================================== *)
(** ** The operand checks of the circuit library

    A [QuantumCircuit] method checks its operands before it appends.  A
    qubit or classical bit given as an integer indexes its register as a
    Python list does: [-size <= i < size], a negative index counting from
    the end; any other index raises [CircuitError].  A gate method given an
    empty list of qubits raises [CircuitError], and so does a gate given
    the same qubit twice.  An instruction is appended on the bits its
    operands denote, and a method that raises appends nothing. *)

Module Checked.
Section WithNum.
Import Circuit.
Context {R : Type} {N : Num R}.

Inductive built (A : Type) : Type :=
| Built (a : A)
| CircuitError.
Arguments Built {A} a.
Arguments CircuitError {A}.

Definition bind {A B : Type} (m : built A) (k : A -> built B) : built B :=
  match m with
  | Built a => k a
  | CircuitError => CircuitError
  end.

Local Notation "x <~ m ;; k" := (bind m (fun x => k))
  (at level 61, m at next level, right associativity).

(** [i] is an index of a register of [size] bits, and the bit it denotes. *)
Definition in_register (size : nat) (i : Z) : bool :=
  (- Z.of_nat size <=? i) && (i <? Z.of_nat size).

Definition position (size : nat) (i : Z) : Z :=
  if i <? 0 then i + Z.of_nat size else i.

Definition resolve (size : nat) (i : Z) : built Z :=
  if in_register size i then Built (position size i) else CircuitError.

Fixpoint resolve_all (size : nat) (indices : list Z) : built (list Z) :=
  match indices with
  | [] => Built []
  | i :: rest =>
      q <~ resolve size i ;;
      qs <~ resolve_all size rest ;;
      Built (q :: qs)
  end.

(** A one-qubit gate method called with a list of qubits. *)
Definition each_qubit (g : Z -> Instruction R) (qs : list Z)
    (qc : QuantumCircuit R) : built (QuantumCircuit R) :=
  match qs with
  | [] => CircuitError
  | _ :: _ =>
      qs <~ resolve_all (num_qubits qc) qs ;;
      Built (broadcast g qs qc)
  end.

Definition h (qs : list Z) := each_qubit HGate qs.
Definition rx (theta : R) (qs : list Z) := each_qubit (RXGate theta) qs.

Definition u (theta phi lam : R) (q : Z) (qc : QuantumCircuit R)
    : built (QuantumCircuit R) :=
  q <~ resolve (num_qubits qc) q ;;
  Built (Circuit.u theta phi lam q qc).

Definition cu (theta phi lam gamma : R) (c t : Z) (qc : QuantumCircuit R)
    : built (QuantumCircuit R) :=
  c <~ resolve (num_qubits qc) c ;;
  t <~ resolve (num_qubits qc) t ;;
  if c =? t then CircuitError
  else Built (Circuit.cu theta phi lam gamma c t qc).

(** [qc.measure(qs, cs)] on two lists of the same length. *)
Definition measure (qs cs : list Z) (qc : QuantumCircuit R)
    : built (QuantumCircuit R) :=
  match qs with
  | [] => CircuitError
  | _ :: _ =>
      qs <~ resolve_all (num_qubits qc) qs ;;
      cs <~ resolve_all (num_clbits qc) cs ;;
      Built (Circuit.measure qs cs qc)
  end.

Definition barrier (qc : QuantumCircuit R) : built (QuantumCircuit R) :=
  Built (Circuit.barrier qc).

(** The body of the problem-unitary loop, and the loop. *)
Definition edge_step (gamma : R) (edge : QAOA.Edge R) (qc : QuantumCircuit R)
    : built (QuantumCircuit R) :=
  let '(k, l, weight) := edge in
  qc <~ cu (of_int 0) (of_int 0) (mul (mul (of_int (-2)) gamma) weight)
           (of_int 0) k l qc ;;
  qc <~ u (of_int 0) (of_int 0) (mul gamma weight) k qc ;;
  u (of_int 0) (of_int 0) (mul gamma weight) l qc.

Fixpoint edge_loop (gamma : R) (graph_edges : list (QAOA.Edge R))
    (qc : QuantumCircuit R) : built (QuantumCircuit R) :=
  match graph_edges with
  | [] => Built qc
  | edge :: rest =>
      qc <~ edge_step gamma edge qc ;;
      edge_loop gamma rest qc
  end.

(** [QAOA.create_qaoa_circuit] with the checks of every call it makes. *)
Definition create_qaoa_circuit (self : QAOA.t) (graph_edges : list (QAOA.Edge R))
    (gamma beta : R) : built (QuantumCircuit R) :=
  let n := QAOA.n_qubits self in
  let qc := new n n None in
  (* Initial state superposition *)
  qc <~ h (Py.range n) qc ;;
  qc <~ barrier qc ;;
  (* Problem unitary *)
  qc <~ edge_loop gamma graph_edges qc ;;
  (* Mixing unitary *)
  qc <~ barrier qc ;;
  qc <~ rx (mul (of_int 2) beta) (Py.range n) qc ;;
  (* Measurement *)
  measure (Py.range n) (Py.range n) qc.

(** An edge the library accepts on [n] qubits, and the edge on the qubits
    its node indices denote. *)
Definition edge_ok (n : nat) (edge : QAOA.Edge R) : bool :=
  let '(k, l, _) := edge in
  in_register n k && in_register n l && negb (position n k =? position n l).

Definition resolved_edge (n : nat) (edge : QAOA.Edge R) : QAOA.Edge R :=
  let '(k, l, weight) := edge in (position n k, position n l, weight).

End WithNum.
Arguments built A : clear implicits.
Arguments Built {A} a.
Arguments CircuitError {A}.
End Checked.

(* ================================================================== *)
(** ** [class QubitRouter]

    Both methods delegate to the transpiler of the circuit library.  The
    transpiler is not part of the modelled sources: it is a parameter, a
    function of the circuit, the keyword arguments of the call, and the
    randomness a run draws when no seed is passed.  It either raises or
    returns a circuit. *)

Module QubitRouter.
Section WithTranspiler.
Import Circuit.
Context {R : Type}.

(** The keyword arguments of a [transpile] call; [None] is "not passed". *)
Record TranspileArgs : Type := mkArgs {
  basis_gates : option (list string);
  coupling_map : option (list (Z * Z));
  layout_method : option string;
  routing_method : option string;
  optimization_level : option Z;
  seed_transpiler : option Z
}.

Context {Entropy TranspilerError : Type}.
Variable transpile :
  QuantumCircuit R -> TranspileArgs -> Entropy ->
  TranspilerError + QuantumCircuit R.
Variables (depth size : QuantumCircuit R -> Z).
Variable count_ops : QuantumCircuit R -> list (string * Z).

Record t : Type := mk { self_basis_gates : list string }.


Definition decompose_kwargs (self : t) (optimization_level : Z) : TranspileArgs :=
  mkArgs (Some (self_basis_gates self)) None None None
         (Some optimization_level) None.

Definition decompose_circuit (self : t) (circuit : QuantumCircuit R)
    (optimization_level : Z) (entropy : Entropy)
    : TranspilerError + QuantumCircuit R :=
  transpile circuit (decompose_kwargs self optimization_level) entropy.




End WithTranspiler.
Arguments TranspileArgs : clear implicits.
End QubitRouter.

(* ================================================================== *)
(** ** Ideal simulation

    The state-vector meaning of the instructions, over the reals: a state
    assigns a complex amplitude to every basis state, a basis state assigns
    a bit to every qubit index, and a circuit measured at its end yields a
    basis state with the squared modulus of its amplitude. *)

Module Simulator.
Import Circuit.
Local Open Scope R_scope.

Definition C : Type := (R * R)%type.
Definition Cadd (a b : C) : C := (fst a + fst b, snd a + snd b).
Definition Cmul (a b : C) : C :=
  (fst a * fst b - snd a * snd b, fst a * snd b + snd a * fst b).
Definition Cscale (r : R) (a : C) : C := (r * fst a, r * snd a).
Definition C0 : C := (0, 0).
Definition C1 : C := (1, 0).
Definition cis (t : R) : C := (cos t, sin t).
Definition Cnorm2 (a : C) : R := fst a * fst a + snd a * snd a.

Definition Basis : Type := Z -> bool.
Definition State : Type := Basis -> C.

Definition upd (q : Z) (b : bool) (x : Basis) : Basis :=
  fun i => if Z.eqb i q then b else x i.

Record Matrix2 : Type := mkMatrix2 { m00 : C; m01 : C; m10 : C; m11 : C }.

Definition scale_matrix (c : C) (m : Matrix2) : Matrix2 :=
  mkMatrix2 (Cmul c (m00 m)) (Cmul c (m01 m)) (Cmul c (m10 m)) (Cmul c (m11 m)).

(** A one-qubit matrix applied to qubit [q]. *)
Definition apply1 (m : Matrix2) (q : Z) (psi : State) : State :=
  fun x =>
    let a0 := psi (upd q false x) in
    let a1 := psi (upd q true x) in
    if x q then Cadd (Cmul (m10 m) a0) (Cmul (m11 m) a1)
    else Cadd (Cmul (m00 m) a0) (Cmul (m01 m) a1).

(** An operation applied on the part of the state where qubit [c] is 1. *)
Definition controlled (c : Z) (op : State -> State) (psi : State) : State :=
  fun x => if x c then op psi x else psi x.

Definition h_matrix : Matrix2 :=
  mkMatrix2 (/ R_sqrt.sqrt 2, 0) (/ R_sqrt.sqrt 2, 0)
            (/ R_sqrt.sqrt 2, 0) (- / R_sqrt.sqrt 2, 0).

Definition x_matrix : Matrix2 := mkMatrix2 C0 C1 C1 C0.

Definition rx_matrix (theta : R) : Matrix2 :=
  mkMatrix2 (cos (theta / 2), 0) (0, - sin (theta / 2))
            (0, - sin (theta / 2)) (cos (theta / 2), 0).

(** U(theta, phi, lam) =
    [[cos(theta/2), -e^(i lam) sin(theta/2)],
     [e^(i phi) sin(theta/2), e^(i (phi + lam)) cos(theta/2)]]. *)
Definition u_matrix (theta phi lam : R) : Matrix2 :=
  mkMatrix2 (cos (theta / 2), 0)
            (Cscale (- sin (theta / 2)) (cis lam))
            (Cscale (sin (theta / 2)) (cis phi))
            (Cscale (cos (theta / 2)) (cis (phi + lam))).

Definition apply_instruction (g : Instruction R) (psi : State) : State :=
  match g with
  | HGate q => apply1 h_matrix q psi
  | CXGate c t => controlled c (apply1 x_matrix t) psi
  | CCXGate c1 c2 t => controlled c1 (controlled c2 (apply1 x_matrix t)) psi
  | CUGate theta phi lam gamma c t =>
      controlled c (apply1 (scale_matrix (cis gamma) (u_matrix theta phi lam)) t) psi
  | UGate theta phi lam q => apply1 (u_matrix theta phi lam) q psi
  | RXGate theta q => apply1 (rx_matrix theta) q psi
  | Measure _ _ => psi
  | Barrier _ => psi
  end.

Definition run (gates : list (Instruction R)) (psi : State) : State :=
  fold_left (fun s g => apply_instruction g s) gates psi.

(** All register qubits in state 0. *)
Definition ket0 (n : nat) : State :=
  fun x => if forallb (fun q => negb (x q)) (Py.range n) then C1 else C0.

Definition final_state (qc : QuantumCircuit R) : State :=
  run (data qc) (ket0 (num_qubits qc)).

(** The probability of reading the basis state [x] at the end. *)
Definition measurement_distribution (qc : QuantumCircuit R) (x : Basis) : R :=
  Cnorm2 (final_state qc x).

(** On a basis state CNOT and Toffoli are conditional bit flips; the other
    instructions have no such reading. *)
Definition flip (q : Z) (x : Basis) : Basis := upd q (negb (x q)) x.

Definition classical_step (g : Instruction R) (x : Basis) : option Basis :=
  match g with
  | CXGate c t => Some (if x c then flip t x else x)
  | CCXGate c1 c2 t => Some (if x c1 && x c2 then flip t x else x)
  | Measure _ _ => Some x
  | Barrier _ => Some x
  | _ => None
  end.

Fixpoint classical_run (gates : list (Instruction R)) (x : Basis)
    : option Basis :=
  match gates with
  | [] => Some x
  | g :: rest =>
      match classical_step g x with
      | Some y => classical_run rest y
      | None => None
      end
  end.

(** The basis state with bit [b] on qubit 0 and 0 elsewhere. *)
Definition logical (b : bool) : Basis := fun i => if Z.eqb i 0 then b else false.

(** Pointwise multiplication by a phase that depends on the basis state. *)
Definition diag (d : Basis -> C) (psi : State) : State :=
  fun x => Cmul (d x) (psi x).

Definition phase_if (b : bool) (t : R) : C := if b then cis t else C1.

(** The phase one edge of the cost layer contributes at a basis state. *)
Definition edge_phase (gamma : R) (e : QAOA.Edge R) (x : Basis) : C :=
  let '(k, l, w) := e in
  Cmul (Cmul (phase_if (x l) (gamma * w)) (phase_if (x k) (gamma * w)))
       (phase_if (x k && x l) (-2 * gamma * w)).

End Simulator.

(* ================================================================== *)
(** ** Vocabulary of the statements *)

Module Wiring.

(** The syndrome wiring of the double-error decoder: (data, syndrome). *)
Definition syndrome_wiring : list (Z * Z) :=
  [ (0, 5); (1, 5); (1, 6); (2, 6); (2, 7); (3, 7); (3, 8); (4, 8) ].

(** Its correction gates: (syndrome, syndrome, data). *)
Definition correction_wiring : list (Z * Z * Z) :=
  [ (5, 7, 1); (6, 8, 3); (5, 6, 0); (6, 7, 2); (7, 8, 4) ].

Definition is_data (q : Z) : bool := (0 <=? q) && (q <=? 4).
Definition is_syndrome (q : Z) : bool := (5 <=? q) && (q <=? 8).

(** The data qubits a syndrome qubit is wired to, in wiring order. *)
Definition wired_to (s : Z) : list Z :=
  map fst (filter (fun ds => snd ds =? s) syndrome_wiring).

(** Two control pairs overlap when they are different pairs that share a
    syndrome qubit. *)
Definition overlap (c d : Z * Z * Z) : bool :=
  let '(a1, a2, _) := c in
  let '(b1, b2, _) := d in
  negb ((a1 =? b1) && (a2 =? b2))
  && ((a1 =? b1) || (a1 =? b2) || (a2 =? b1) || (a2 =? b2)).

End Wiring.

Module Ansatz.
Section WithNum.
Import Circuit QAOA.
Context {R : Type} {N : Num R}.

(** The instructions of one edge, as a list. *)
Definition edge_gates (gamma : R) (edge : Edge R) : list (Instruction R) :=
  let '(k, l, weight) := edge in
  [ CUGate (of_int 0) (of_int 0) (mul (mul (of_int (-2)) gamma) weight) (of_int 0) k l;
    UGate (of_int 0) (of_int 0) (mul gamma weight) k;
    UGate (of_int 0) (of_int 0) (mul gamma weight) l ].

(** The instruction list of the ansatz, block by block. *)
Definition ansatz_gates (n : nat) (edges : list (Edge R)) (gamma beta : R)
    : list (Instruction R) :=
  map HGate (Py.range n)
  ++ [Barrier (Py.range n)]
  ++ flat_map (edge_gates gamma) edges
  ++ [Barrier (Py.range n)]
  ++ map (RXGate (mul (of_int 2) beta)) (Py.range n)
  ++ map (fun i => Measure i i) (Py.range n).

End WithNum.
End Ansatz.

Module Expectation.
Section WithNum.
Import QAOA.
Context {R : Type}.

(** [i] is an index Python accepts on [s]: [-len(s) <= i < len(s)]. *)
Definition valid_index (s : string) (i : Z) : bool :=
  (- Z.of_nat (String.length s) <=? i) && (i <? Z.of_nat (String.length s)).

(** Both endpoints of every edge are valid indices of the key [s]. *)
Definition edges_in_range (s : string) (edges : list (Edge R)) : bool :=
  forallb (fun e => valid_index s (fst (fst e)) && valid_index s (snd (fst e)))
          edges.

Definition indices_in_range (counts : list (string * Z)) (edges : list (Edge R))
    : bool :=
  forallb (fun kv => edges_in_range (fst kv) edges) counts.



End WithNum.

(** The specification's formula, in exact rational arithmetic. *)

Definition endpoint_bit (s : string) (i : Z) : option ascii :=
  match Py.str_getitem s i with
  | Py.Ok c => Some c
  | Py.Raise _ => None
  end.

Definition endpoints_differ (s : string) (i j : Z) : bool :=
  match endpoint_bit s i, endpoint_bit s j with
  | Some a, Some b => negb (Ascii.eqb a b)
  | _, _ => false
  end.

Definition Qsum (xs : list Q) : Q := fold_right Qplus 0%Q xs.

(** Cut value of a bitstring: the sum of the weights of the edges whose two
    endpoint bits differ. *)
Definition cut_value (s : string) (edges : list (QAOA.Edge Q)) : Q :=
  Qsum (map (fun e : QAOA.Edge Q =>
               if endpoints_differ s (fst (fst e)) (snd (fst e))
               then snd e else 0%Q) edges).

(** Sum over the bitstrings of cut value times count, divided by the total
    number of shots. *)
Definition expectation_spec (counts : list (string * Z))
    (edges : list (QAOA.Edge Q)) : Q :=
  (Qsum (map (fun kv => cut_value (fst kv) edges * inject_Z (snd kv))%Q counts)
   / inject_Z (Py.sum (map snd counts)))%Q.

(** The path graph on four nodes with unit weights, used by the examples. *)
Definition path4 {R : Type} {N : Num R} : list (QAOA.Edge R) :=
  [ (0, 1, of_int 1); (1, 2, of_int 1); (2, 3, of_int 1) ].

End Expectation.

Module RouterExamples.
Import Circuit QubitRouter.

(** The circuit of the layout test: CNOT 0->1, CNOT 1->2 on three qubits. *)
Definition chain3 : QuantumCircuit Q := cx 1 2 (cx 0 1 (new 3 0 None)).

End RouterExamples.

Module Repetition.
Import Circuit QuantumErrorCorrection Simulator.

(** Bit flips on the listed qubits, the first of the list applied last. *)
Definition flip_all (flips : list Z) (x : Basis) : Basis :=
  fold_right flip x flips.

(** The same error on a state: an X gate on each listed qubit. *)
Definition x_errors (flips : list Z) (psi : State) : State :=
  fold_right (fun q s => apply1 x_matrix q s) psi flips.

(** Encode the bit [b], flip the listed qubits, decode, and read the three
    qubits. *)
Definition code_cycle (b : bool) (flips : list Z) : option (bool * bool * bool) :=
  match classical_run (data (@create_encoder R)) (logical b) with
  | Some encoded =>
      match classical_run (data (@create_single_error_decoder R))
                          (flip_all flips encoded) with
      | Some y => Some (y 0, y 1, y 2)
      | None => None
      end
  | None => None
  end.

(** The five-qubit repetition codeword of [b]: data qubits 0..4 hold [b],
    the syndrome qubits 5..8 are 0. *)
Definition codeword5 (b : bool) : Basis :=
  fun i => if (0 <=? i) && (i <=? 4) then b else false.

(** All five data qubits hold [b]. *)
Definition data_restored (b : bool) (y : Basis) : bool :=
  forallb (fun i => Bool.eqb (y i) b) [0; 1; 2; 3; 4].

(** The sets of at most two flipped data qubits. *)
Definition flip_patterns : list (list Z) :=
  [ []; [0]; [1]; [2]; [3]; [4];
    [0; 1]; [0; 2]; [0; 3]; [0; 4]; [1; 2]; [1; 3]; [1; 4];
    [2; 3]; [2; 4]; [3; 4] ].

Definition same_pattern (p q : list Z) : bool :=
  if list_eq_dec Z.eq_dec p q then true else false.

(** Whether the double-error decoder returns the codeword of [b] after the
    flips [p]. *)
Definition double_decoder_restores (b : bool) (p : list Z) : bool :=
  match classical_run (data (@create_double_error_decoder R))
                      (flip_all p (codeword5 b)) with
  | Some y => data_restored b y
  | None => false
  end.

(** CNOT and Toffoli with pairwise distinct operands; measurements and
    barriers. *)
Definition is_permutation_gate (g : Instruction R) : bool :=
  match g with
  | CXGate c t => negb (c =? t)
  | CCXGate c1 c2 t => negb (c1 =? t) && negb (c2 =? t)
  | Measure _ _ => true
  | Barrier _ => true
  | _ => false
  end.

End Repetition.

(* ================================================================== *)
(** ** [utils/benchmarks.py] *)

(** Comparisons of Python numbers: [>], [<] and [==]. *)
Class Ord (R : Type) : Type := {
  gtb : R -> R -> bool;
  ltb : R -> R -> bool;
  eqb : R -> R -> bool
}.

#[export] Instance Ord_Q : Ord Q := {
  gtb := fun a b => negb (Qle_bool a b);
  ltb := fun a b => negb (Qle_bool b a);
  eqb := Qeq_bool
}.

#[export] Instance Ord_float : Ord float := {
  gtb := fun a b => PrimFloat.ltb b a;
  ltb := PrimFloat.ltb;
  eqb := PrimFloat.eqb
}.

Module PyFormat.
Local Open Scope string_scope.

(** The binary digits of a positive number, most significant first, put in
    front of [acc]. *)
Fixpoint pos_digits (p : positive) (acc : string) : string :=
  match p with
  | xH => String "1" acc
  | xO q => pos_digits q (String "0" acc)
  | xI q => pos_digits q (String "1" acc)
  end.

Fixpoint zeros (n : nat) : string :=
  match n with
  | O => ""
  | S k => String "0" (zeros k)
  end.

(** [format(i, '0{width}b')]: the binary digits of [i], padded with zeros
    on the left (after the sign) up to [width] characters. *)
Definition format_bin (width : nat) (i : Z) : string :=
  match i with
  | Z0 => zeros (width - 1) ++ "0"
  | Zpos p =>
      let d := pos_digits p "" in zeros (width - String.length d) ++ d
  | Zneg p =>
      let d := pos_digits p "" in
      String "-" (zeros (width - 1 - String.length d) ++ d)
  end.

(** [range(a, b)] *)
Definition range_from (a b : Z) : list Z :=
  map (fun k => a + Z.of_nat k)%Z (seq 0 (Z.to_nat (b - a))).

End PyFormat.

Module CircuitBenchmarker.
Section WithLibrary.
Import Circuit.
Context {R : Type} {N : Num R}.

(** [depth()], [width()], [size()] and [count_ops()] are methods of the
    circuit library. *)
Variables (depth width size : QuantumCircuit R -> Z).
Variable count_ops : QuantumCircuit R -> list (string * Z).

(** [inst[1]]: the qubits an instruction of [circuit.data] acts on. *)
Definition qargs (inst : Instruction R) : list Z :=
  match inst with
  | HGate q => [q]
  | CXGate c t => [c; t]
  | CCXGate c1 c2 t => [c1; c2; t]
  | CUGate _ _ _ _ c t => [c; t]
  | UGate _ _ _ q => [q]
  | RXGate _ q => [q]
  | Measure q _ => [q]
  | Barrier qs => qs
  end.

(** [sum(1 for inst in circuit.data if len(inst[1]) > 1)] *)
Definition nonlocal_gates (circuit : QuantumCircuit R) : Z :=
  Py.sum (map (fun _ => 1)
              (filter (fun inst => (1 <? List.length (qargs inst))%nat)
                      (data circuit))).

(** The dictionary [analyze_circuit_metrics] returns, by key. *)
Record Metrics : Type := mkMetrics {
  m_depth : Z;
  m_width : Z;
  m_size : Z;
  m_num_qubits : Z;
  m_num_clbits : Z;
  m_gate_counts : list (string * Z);
  m_nonlocal_gates : Z
}.

Definition analyze_circuit_metrics (circuit : QuantumCircuit R) : Metrics :=
  mkMetrics (depth circuit) (width circuit) (size circuit)
            (Z.of_nat (num_qubits circuit)) (Z.of_nat (num_clbits circuit))
            (count_ops circuit) (nonlocal_gates circuit).

(** The items whose value is an [int], in the order of the keys; the
    [gate_counts] dictionary fails the [isinstance] test. *)
Definition int_items (m : Metrics) : list (string * Z) :=
  [ ("depth", m_depth m); ("width", m_width m); ("size", m_size m);
    ("num_qubits", m_num_qubits m); ("num_clbits", m_num_clbits m);
    ("nonlocal_gates", m_nonlocal_gates m) ]%string.

(** A value of the comparison dictionary: an [int] difference, a [float]
    ratio, or [float('inf')]. *)
Inductive Comparison : Type :=
| Diff (z : Z)
| Ratio (r : R)
| Inf.

Definition compare_entry (key : string) (m1 m2 : Z) : list (string * Comparison) :=
  [ ((key ++ "_diff")%string, Diff (m2 - m1));
    ((key ++ "_ratio")%string,
     if negb (m1 =? 0) then Ratio (div (of_int m2) (of_int m1)) else Inf) ].

Definition compare_circuits (circuit1 circuit2 : QuantumCircuit R)
    : list (string * Comparison) :=
  let metrics1 := analyze_circuit_metrics circuit1 in
  let metrics2 := analyze_circuit_metrics circuit2 in
  flat_map (fun kv : (string * Z) * (string * Z) =>
              compare_entry (fst (fst kv)) (snd (fst kv)) (snd (snd kv)))
           (combine (int_items metrics1) (int_items metrics2)).

End WithLibrary.
Arguments Comparison R : clear implicits.
End CircuitBenchmarker.

Module QAOABenchmarker.
Import PyFormat.

(** What the functions of this class can raise: the exceptions of indexing
    and division, and the [ValueError] of [max] on an empty sequence. *)
Inductive error : Type :=
| Builtin (e : Py.exn)
| ValueError.

Inductive outcome (A : Type) : Type :=
| Done (a : A)
| Fail (e : error).
Arguments Done {A} a.
Arguments Fail {A} e.

Definition lift {A : Type} (r : Py.result A) : outcome A :=
  match r with
  | Py.Ok a => Done a
  | Py.Raise e => Fail (Builtin e)
  end.

Definition obind {A B : Type} (m : outcome A) (k : A -> outcome B) : outcome B :=
  match m with
  | Done a => k a
  | Fail e => Fail e
  end.

Section WithNum.
Context {R : Type} {N : Num R} {O : Ord R}.

Section Random.
(** The generator behind [np.random]: a state, a draw in [0, 1) and a
    uniform draw between two bounds. *)
Context {S : Type}.
Variable random : S -> R * S.
Variable uniform : R -> R -> S -> R * S.

Fixpoint random_row (i : Z) (js : list Z) (edge_probability : R)
    (edges : list (QAOA.Edge R)) (rng : S) : list (QAOA.Edge R) * S :=
  match js with
  | [] => (edges, rng)
  | j :: rest =>
      let (x, rng1) := random rng in
      if ltb x edge_probability then
        let (weight, rng2) :=
          uniform (div (of_int 1) (of_int 2)) (div (of_int 3) (of_int 2)) rng1 in
        random_row i rest edge_probability (edges ++ [(i, j, weight)]) rng2
      else random_row i rest edge_probability edges rng1
  end.

Fixpoint random_rows (rows : list Z) (n_nodes : nat) (edge_probability : R)
    (edges : list (QAOA.Edge R)) (rng : S) : list (QAOA.Edge R) * S :=
  match rows with
  | [] => (edges, rng)
  | i :: rest =>
      let (edges1, rng1) :=
        random_row i (range_from (i + 1) (Z.of_nat n_nodes))
                   edge_probability edges rng in
      random_rows rest n_nodes edge_probability edges1 rng1
  end.

(** The edge list, and the generator state the call leaves behind. *)
Definition generate_random_graph (n_nodes : nat) (edge_probability : R)
    (rng : S) : list (QAOA.Edge R) * S :=
  random_rows (Py.range n_nodes) n_nodes edge_probability [] rng.

End Random.

(** The loop over the [2**n_nodes] candidate cuts. *)
Fixpoint maxcut_loop (candidates : list Z) (n_nodes : nat)
    (edges : list (QAOA.Edge R)) (max_cut : R) (best_cut : option string)
    : Py.result (R * option string) :=
  match candidates with
  | [] => Py.Ok (max_cut, best_cut)
  | i :: rest =>
      let cut := format_bin n_nodes i in
      cut_value <- QAOA.cut_cost cut edges (of_int 0) ;;
      if gtb cut_value max_cut
      then maxcut_loop rest n_nodes edges cut_value (Some cut)
      else maxcut_loop rest n_nodes edges max_cut best_cut
  end.

Definition compute_classical_maxcut (edges : list (QAOA.Edge R)) (n_nodes : nat)
    : Py.result (R * option string) :=
  maxcut_loop (Py.range (2 ^ n_nodes)) n_nodes edges (of_int 0) None.

(** [quantum_cuts]: the cut value of every measured state, in the order of
    [quantum_solution.items()]. *)
Fixpoint quantum_cuts (items : list (string * Z)) (edges : list (QAOA.Edge R))
    : Py.result (list (string * R)) :=
  match items with
  | [] => Py.Ok []
  | (state, _) :: rest =>
      cut_value <- QAOA.cut_cost state edges (of_int 0) ;;
      cuts <- quantum_cuts rest edges ;;
      Py.Ok ((state, cut_value) :: cuts)
  end.

(** [max(values)]: the first of the largest values; [ValueError] on an
    empty sequence. *)
Definition py_max (values : list R) : outcome R :=
  match values with
  | [] => Fail ValueError
  | v :: rest => Done (fold_left (fun m x => if gtb x m then x else m) rest v)
  end.

(** [x / y] on numbers. *)
Definition num_div (x y : R) : outcome R :=
  if eqb y (of_int 0) then Fail (Builtin Py.ZeroDivisionError)
  else Done (div x y).

(** [np.mean(values)]: the sum divided by the count. *)
Definition mean (values : list R) : R :=
  div (fold_left add values (of_int 0)) (of_int (Z.of_nat (List.length values))).

(** [quantum_cuts[state]] *)
Fixpoint cut_of (cuts : list (string * R)) (state : string) : option R :=
  match cuts with
  | [] => None
  | (s, v) :: rest => if String.eqb s state then Some v else cut_of rest state
  end.

(** The counts of the states whose cut value equals the best one. *)
Definition best_counts (items : list (string * Z)) (cuts : list (string * R))
    (best : R) : list Z :=
  map snd (filter (fun sc : string * Z =>
                     match cut_of cuts (fst sc) with
                     | Some v => eqb v best
                     | None => false
                     end) items).

Record Accuracy : Type := mkAccuracy {
  approximation_ratio : R;
  average_cut_ratio : R;
  success_probability : R
}.

Definition analyze_qaoa_accuracy (quantum_solution : list (string * Z))
    (classical_solution : R * option string) (edges : list (QAOA.Edge R))
    : outcome Accuracy :=
  let classical_max := fst classical_solution in
  obind (lift (quantum_cuts quantum_solution edges)) (fun cuts =>
  obind (py_max (map snd cuts)) (fun best_quantum_cut =>
  obind (num_div best_quantum_cut classical_max) (fun approximation =>
  obind (num_div (mean (map snd cuts)) classical_max) (fun average =>
  obind (lift (QAOA.true_div
                 (of_int (Py.sum (best_counts quantum_solution cuts best_quantum_cut)))
                 (Py.sum (map snd quantum_solution)))) (fun success =>
  Done (mkAccuracy approximation average success)))))).

End WithNum.
End QAOABenchmarker.

Module BenchmarkExamples.

(** A generator for the examples: its state is a counter, and both draws
    return fixed values. *)
Definition counter_random (s : Z) : Q * Z := ((1 # 4)%Q, s + 1).
Definition counter_uniform (a b : Q) (s : Z) : Q * Z := (a, s + 1).

(** A parser for the examples: every file holds the circuit [chain3]. *)
Definition parse_chain3 (qasm_file : string) : unit + Circuit.QuantumCircuit Q :=
  inr RouterExamples.chain3.

End BenchmarkExamples.

Module Cuts.
Local Open Scope string_scope.

(** Every character is ['0'] or ['1']. *)
Fixpoint all_bits (s : string) : bool :=
  match s with
  | "" => true
  | String c rest => (Ascii.eqb c "0" || Ascii.eqb c "1") && all_bits rest
  end.

(** A bitstring of [n] characters: an assignment of the [n] nodes to the
    two sides of a cut. *)
Definition is_bitstring (n : nat) (s : string) : bool :=
  (String.length s =? n)%nat && all_bits s.

(** The number a bitstring denotes, most significant bit first, continuing
    from the value [acc] of the bits already read. *)
Fixpoint bits_value (s : string) (acc : Z) : Z :=
  match s with
  | "" => acc
  | String c rest => bits_value rest (2 * acc + (if Ascii.eqb c "1" then 1 else 0))
  end.

End Cuts.

Module BenchmarkLoader.
Section WithParser.
Import Circuit.
Local Open Scope string_scope.
Context {R ParseError : Type}.

(** [QuantumCircuit.from_qasm_file] is the circuit library's parser; the
    list of files is what [glob.glob] found. *)
Variable from_qasm_file : string -> ParseError + QuantumCircuit R.

Fixpoint contains (c : ascii) (s : string) : bool :=
  match s with
  | "" => false
  | String d rest => Ascii.eqb d c || contains c rest
  end.

(** [os.path.basename(p)]: what follows the last ['/']. *)
Fixpoint basename (p : string) : string :=
  match p with
  | "" => ""
  | String c rest =>
      if contains "/" rest then basename rest
      else if Ascii.eqb c "/" then rest else p
  end.

(** [s.split('.')[0]]: what precedes the first ['.']. *)
Fixpoint before_dot (s : string) : string :=
  match s with
  | "" => ""
  | String c rest => if Ascii.eqb c "." then "" else String c (before_dot rest)
  end.

(** [d[key] = value] on a dictionary kept as its item list: an existing key
    keeps its place and takes the new value, a new key goes last. *)
Fixpoint dict_set {V : Type} (d : list (string * V)) (key : string) (value : V)
    : list (string * V) :=
  match d with
  | [] => [(key, value)]
  | (k, v) :: rest =>
      if String.eqb k key then (k, value) :: rest
      else (k, v) :: dict_set rest key value
  end.

Fixpoint dict_get {V : Type} (d : list (string * V)) (key : string) : option V :=
  match d with
  | [] => None
  | (k, v) :: rest => if String.eqb k key then Some v else dict_get rest key
  end.

(** [circuit.name = name] *)
Definition set_name (circuit : QuantumCircuit R) (name : string) : QuantumCircuit R :=
  mkCircuit (num_qubits circuit) (num_clbits circuit) (Some name) (data circuit).

Definition benchmark_name (qasm_file : string) : string :=
  before_dot (basename qasm_file).

Fixpoint load_loop (qasm_files : list string)
    (benchmarks : list (string * QuantumCircuit R))
    : ParseError + list (string * QuantumCircuit R) :=
  match qasm_files with
  | [] => inr benchmarks
  | qasm_file :: rest =>
      let name := benchmark_name qasm_file in
      match from_qasm_file qasm_file with
      | inl err => inl err
      | inr circuit => load_loop rest (dict_set benchmarks name (set_name circuit name))
      end
  end.

(** The result of the call and the value of [self.benchmarks] after it. *)
Definition load_qasm_benchmarks (self_benchmarks : list (string * QuantumCircuit R))
    (qasm_files : list string)
    : (ParseError + list (string * QuantumCircuit R))
      * list (string * QuantumCircuit R) :=
  match load_loop qasm_files [] with
  | inl err => (inl err, self_benchmarks)
  | inr benchmarks => (inr benchmarks, benchmarks)
  end.

End WithParser.
End BenchmarkLoader.

(* ================================================================== *)
(** * Properties *)

(** ** The circuit builder *)

Section CircuitFacts.
Import Circuit.
Context {R : Type}.

Lemma append_data (g : Instruction R) qc :
  data (append g qc) = data qc ++ [g].
Proof. reflexivity. Qed.

Lemma broadcast_data {A : Type} (g : A -> Instruction R) xs :
  forall qc, data (broadcast g xs qc) = data qc ++ map g xs.
Proof.
  unfold broadcast.
  induction xs as [|x xs IH]; intros qc; simpl.
  - now rewrite app_nil_r.
  - rewrite IH, append_data, <- app_assoc. reflexivity.
Qed.

Lemma broadcast_shape {A : Type} (g : A -> Instruction R) xs :
  forall qc,
    num_qubits (broadcast g xs qc) = num_qubits qc /\
    num_clbits (broadcast g xs qc) = num_clbits qc /\
    name (broadcast g xs qc) = name qc.
Proof.
  unfold broadcast.
  induction xs as [|x xs IH]; intros qc; simpl; [tauto|].
  destruct (IH (append (g x) qc)) as (-> & -> & ->). now simpl.
Qed.

Lemma combine_diag {A : Type} (l : list A) :
  combine l l = map (fun x => (x, x)) l.
Proof. induction l; simpl; congruence. Qed.

End CircuitFacts.

(** ** Error-correction decoders *)

Section ErrorCorrectionFacts.
Import Circuit QuantumErrorCorrection Wiring.
Context {R : Type}.

(** C2.  The single-error decoder is a 3-qubit circuit whose instructions
    are, in order: CNOT 0->1, CNOT 0->2, then the Toffoli gates with
    controls 1,2 on target 0, controls 2,0 on target 1 and controls 0,1
    on target 2. *)
Theorem single_error_decoder_gates :
  num_qubits (@create_single_error_decoder R) = 3%nat /\
  data (@create_single_error_decoder R) =
    [ CXGate 0 1; CXGate 0 2;
      CCXGate 1 2 0; CCXGate 2 0 1; CCXGate 0 1 2 ].
Proof. split; reflexivity. Qed.

(** C3.  The double-error decoder is a 9-qubit circuit: eight CNOTs that
    wire syndrome qubit 5 to data qubits 0,1, qubit 6 to 1,2, qubit 7 to
    2,3 and qubit 8 to 3,4, followed by exactly five Toffoli gates, each
    controlled by a pair of distinct syndrome qubits that overlaps another
    pair, and each targeting a data qubit of its own. *)
Theorem double_error_decoder_gates :
  num_qubits (@create_double_error_decoder R) = 9%nat /\
  data (@create_double_error_decoder R) =
    map (fun ds => CXGate (fst ds) (snd ds)) syndrome_wiring ++
    map (fun c => CCXGate (fst (fst c)) (snd (fst c)) (snd c)) correction_wiring /\
  List.length syndrome_wiring = 8%nat /\
  List.length correction_wiring = 5%nat /\
  (wired_to 5 = [0; 1] /\ wired_to 6 = [1; 2] /\
   wired_to 7 = [2; 3] /\ wired_to 8 = [3; 4]) /\
  forallb (fun ds => is_data (fst ds) && is_syndrome (snd ds)) syndrome_wiring = true /\
  forallb (fun c => is_syndrome (fst (fst c)) && is_syndrome (snd (fst c))
                    && negb (fst (fst c) =? snd (fst c)) && is_data (snd c))
          correction_wiring = true /\
  forallb (fun c => existsb (overlap c) correction_wiring) correction_wiring
  = true /\
  Permutation (map snd correction_wiring) [0; 1; 2; 3; 4].
Proof.
  repeat split; try reflexivity.
  simpl. apply Permutation_sym.
  apply (Permutation_trans (perm_swap 1 0 [2; 3; 4])).
  apply perm_skip.
  apply (Permutation_trans (perm_skip 0 (perm_swap 3 2 [4]))).
  apply (Permutation_trans (perm_swap 3 0 [2; 4])). apply Permutation_refl.
Qed.

End ErrorCorrectionFacts.

Section DecoderOnBasisStates.
Import Circuit QuantumErrorCorrection.

(** On basis states: after encoding a bit and flipping at most one of the
    three qubits, the single-error decoder leaves the bit on qubit 0. *)
Lemma single_error_decoder_majority (b : bool) (flips : list Z) :
  In flips [[]; [0]; [1]; [2]] ->
  exists encoded decoded,
    Simulator.classical_run (data (@create_encoder R)) (Simulator.logical b)
    = Some encoded /\
    Simulator.classical_run (data (@create_single_error_decoder R))
      (fold_right Simulator.flip encoded flips) = Some decoded /\
    decoded 0 = b.
Proof.
  intros Hin. simpl in Hin.
  destruct Hin as [<- | [<- | [<- | [<- | []]]]]; destruct b;
    (eexists; eexists; split; [reflexivity|split; [reflexivity|reflexivity]]).
Qed.

End DecoderOnBasisStates.

(** ** The QAOA ansatz *)

Section AnsatzFacts.
Import Circuit QAOA Ansatz.
Context {R : Type} {N : Num R}.

Lemma edge_step_data gamma edge qc :
  data (edge_step gamma edge qc) = data qc ++ edge_gates gamma edge.
Proof.
  destruct edge as [[k l] w]. unfold edge_step, edge_gates, cu, u.
  rewrite !append_data, <- !app_assoc. reflexivity.
Qed.

Lemma edge_step_shape gamma edge qc :
  num_qubits (edge_step gamma edge qc) = num_qubits qc /\
  num_clbits (edge_step gamma edge qc) = num_clbits qc.
Proof. destruct edge as [[k l] w]. split; reflexivity. Qed.

Lemma edge_loop_data gamma edges :
  forall qc,
    data (fold_left (fun c e => edge_step gamma e c) edges qc)
    = data qc ++ flat_map (edge_gates gamma) edges.
Proof.
  induction edges as [|e edges IH]; intros qc; simpl.
  - now rewrite app_nil_r.
  - rewrite IH, edge_step_data, <- app_assoc. reflexivity.
Qed.

Lemma edge_loop_shape gamma edges :
  forall qc,
    num_qubits (fold_left (fun c e => edge_step gamma e c) edges qc) = num_qubits qc /\
    num_clbits (fold_left (fun c e => edge_step gamma e c) edges qc) = num_clbits qc.
Proof.
  induction edges as [|e edges IH]; intros qc; simpl; [tauto|].
  destruct (IH (edge_step gamma e qc)) as [-> ->]. apply edge_step_shape.
Qed.

Lemma create_qaoa_circuit_data n edges gamma beta :
  data (create_qaoa_circuit (QAOA.mk n) edges gamma beta)
  = ansatz_gates n edges gamma beta.
Proof.
  unfold create_qaoa_circuit, ansatz_gates, measure, rx, h, barrier; simpl.
  rewrite broadcast_data, broadcast_data, append_data, edge_loop_data,
    append_data, broadcast_data.
  rewrite (proj1 (edge_loop_shape _ _ _)). simpl.
  rewrite (proj1 (broadcast_shape _ _ _)). simpl.
  rewrite combine_diag, map_map. simpl.
  rewrite <- !app_assoc. reflexivity.
Qed.

Lemma create_qaoa_circuit_shape n edges gamma beta :
  num_qubits (create_qaoa_circuit (QAOA.mk n) edges gamma beta) = n /\
  num_clbits (create_qaoa_circuit (QAOA.mk n) edges gamma beta) = n.
Proof.
  unfold create_qaoa_circuit, measure, rx, h, barrier. split.
  - rewrite !(proj1 (broadcast_shape _ _ _)). simpl.
    rewrite (proj1 (edge_loop_shape _ _ _)). simpl.
    now rewrite (proj1 (broadcast_shape _ _ _)).
  - rewrite !(proj1 (proj2 (broadcast_shape _ _ _))). simpl.
    rewrite (proj2 (edge_loop_shape _ _ _)). simpl.
    now rewrite (proj1 (proj2 (broadcast_shape _ _ _))).
Qed.

(** The instructions recorded for accepted operands: a Hadamard on each
    qubit; a barrier; for each edge [(u, v, w)] in list order a controlled
    phase gate of angle [-2*gamma*w] on [(u, v)] and phase gates of angle
    [gamma*w] on [u] and on [v]; a barrier; an X-rotation of angle
    [2*beta] on each qubit; a measurement of each qubit [i] into classical
    bit [i]. *)
Lemma create_qaoa_circuit_recorded (n : nat) (edges : list (Edge R)) (gamma beta : R) :
  let qc := create_qaoa_circuit (QAOA.mk n) edges gamma beta in
  num_qubits qc = n /\ num_clbits qc = n /\
  data qc =
    map HGate (Py.range n)
    ++ [Barrier (Py.range n)]
    ++ flat_map (fun e : Edge R =>
          let '(u, v, w) := e in
          [ CUGate (of_int 0) (of_int 0) (mul (mul (of_int (-2)) gamma) w) (of_int 0) u v;
            UGate (of_int 0) (of_int 0) (mul gamma w) u;
            UGate (of_int 0) (of_int 0) (mul gamma w) v ]) edges
    ++ [Barrier (Py.range n)]
    ++ map (RXGate (mul (of_int 2) beta)) (Py.range n)
    ++ map (fun i => Measure i i) (Py.range n).
Proof.
  cbv zeta. split; [|split].
  - apply create_qaoa_circuit_shape.
  - apply create_qaoa_circuit_shape.
  - apply create_qaoa_circuit_data.
Qed.

End AnsatzFacts.

(** *** The ansatz with the library's operand checks *)

Section CheckedFacts.
Import Circuit QAOA Ansatz.
Context {R : Type} {N : Num R}.

Lemma range_bounds (n : nat) (i : Z) :
  In i (Py.range n) -> 0 <= i < Z.of_nat n.
Proof.
  unfold Py.range. intros H. apply in_map_iff in H as (k & <- & Hk).
  apply in_seq in Hk. lia.
Qed.

Lemma resolve_in_range (size : nat) (i : Z) :
  0 <= i < Z.of_nat size -> Checked.resolve size i = Checked.Built i.
Proof.
  intros H. unfold Checked.resolve, Checked.in_register, Checked.position.
  replace (- Z.of_nat size <=? i) with true by (symmetry; apply Z.leb_le; lia).
  replace (i <? Z.of_nat size) with true by (symmetry; apply Z.ltb_lt; lia).
  replace (i <? 0) with false by (symmetry; apply Z.ltb_ge; lia).
  reflexivity.
Qed.

Lemma resolve_all_in_range (size : nat) (indices : list Z) :
  (forall i, In i indices -> 0 <= i < Z.of_nat size) ->
  Checked.resolve_all size indices = Checked.Built indices.
Proof.
  induction indices as [|i rest IH]; intros H; [reflexivity|].
  cbn [Checked.resolve_all]. rewrite resolve_in_range by (apply H; now left).
  cbn [Checked.bind]. rewrite IH by (intros j Hj; apply H; now right).
  reflexivity.
Qed.

(** On [range(n)] with [n >= 1] a one-qubit gate method appends on every
    qubit; on [range(0)] it raises. *)
Lemma each_qubit_range (g : Z -> Instruction R) (n : nat) (qc : QuantumCircuit R) :
  num_qubits qc = n ->
  Checked.each_qubit g (Py.range n) qc
  = match n with
    | O => Checked.CircuitError
    | S _ => Checked.Built (broadcast g (Py.range n) qc)
    end.
Proof.
  intros Hn. destruct n as [|n]; [reflexivity|].
  unfold Checked.each_qubit.
  rewrite Hn, resolve_all_in_range by apply range_bounds.
  reflexivity.
Qed.

Lemma measure_range (n : nat) (qc : QuantumCircuit R) :
  num_qubits qc = S n -> num_clbits qc = S n ->
  Checked.measure (Py.range (S n)) (Py.range (S n)) qc
  = Checked.Built (measure (Py.range (S n)) (Py.range (S n)) qc).
Proof.
  intros Hq Hc. unfold Checked.measure.
  rewrite Hq, Hc, resolve_all_in_range by apply range_bounds.
  reflexivity.
Qed.

(** One edge: the three gates on the denoted qubits, or [CircuitError]. *)
Lemma edge_step_checked (gamma : R) (edge : Edge R) (qc : QuantumCircuit R) :
  Checked.edge_step gamma edge qc
  = if Checked.edge_ok (num_qubits qc) edge
    then Checked.Built
           (edge_step gamma (Checked.resolved_edge (num_qubits qc) edge) qc)
    else Checked.CircuitError.
Proof.
  destruct edge as [[k l] w].
  unfold Checked.edge_step, Checked.edge_ok, Checked.resolved_edge,
    Checked.cu, Checked.u, Checked.resolve.
  destruct (Checked.in_register (num_qubits qc) k) eqn:Hk; [|reflexivity].
  destruct (Checked.in_register (num_qubits qc) l) eqn:Hl; [|reflexivity].
  cbn [Checked.bind andb].
  destruct (Checked.position (num_qubits qc) k =? Checked.position (num_qubits qc) l);
    [reflexivity|].
  cbn [Checked.bind negb]. unfold cu, u. cbn [num_qubits append].
  rewrite Hk. cbn [Checked.bind num_qubits append]. rewrite Hl. reflexivity.
Qed.

Lemma edge_loop_checked (gamma : R) (edges : list (Edge R)) :
  forall qc,
    Checked.edge_loop gamma edges qc
    = if forallb (Checked.edge_ok (num_qubits qc)) edges
      then Checked.Built
             (fold_left (fun c e => edge_step gamma e c)
                (map (Checked.resolved_edge (num_qubits qc)) edges) qc)
      else Checked.CircuitError.
Proof.
  induction edges as [|e edges IH]; intros qc; [reflexivity|].
  cbn [Checked.edge_loop forallb map fold_left].
  rewrite edge_step_checked.
  destruct (Checked.edge_ok (num_qubits qc) e); [|reflexivity].
  cbn [Checked.bind andb]. rewrite IH.
  rewrite (proj1 (edge_step_shape gamma _ qc)). reflexivity.
Qed.

(** Whenever the generator returns, it returns the recorded circuit of the
    edges on the qubits their node indices denote; it returns exactly when
    there is a qubit and every edge is accepted. *)
Lemma create_qaoa_circuit_checked (n : nat) (edges : list (Edge R)) (gamma beta : R) :
  Checked.create_qaoa_circuit (QAOA.mk n) edges gamma beta
  = if (1 <=? n)%nat && forallb (Checked.edge_ok n) edges
    then Checked.Built
           (create_qaoa_circuit (QAOA.mk n)
              (map (Checked.resolved_edge n) edges) gamma beta)
    else Checked.CircuitError.
Proof.
  unfold Checked.create_qaoa_circuit, Checked.h, Checked.rx, Checked.barrier.
  cbn [n_qubits]. rewrite each_qubit_range by reflexivity.
  destruct n as [|n]; [reflexivity|].
  cbn [Checked.bind Nat.leb andb]. rewrite edge_loop_checked.
  assert (Hq : num_qubits (barrier (broadcast (@HGate R) (Py.range (S n))
                                      (new (S n) (S n) None))) = S n).
  { unfold barrier. cbn [num_qubits append].
    now rewrite (proj1 (broadcast_shape _ _ _)). }
  unfold h. rewrite Hq.
  destruct (forallb (Checked.edge_ok (S n)) edges); [|reflexivity].
  cbn [Checked.bind].
  set (qc := barrier (fold_left _ _ _)).
  assert (Hs : num_qubits qc = S n /\ num_clbits qc = S n).
  { subst qc. unfold barrier. cbn [num_qubits num_clbits append].
    rewrite (proj1 (edge_loop_shape _ _ _)), (proj2 (edge_loop_shape _ _ _)).
    cbn [num_qubits num_clbits append].
    rewrite (proj1 (broadcast_shape _ _ _)),
      (proj1 (proj2 (broadcast_shape _ _ _))). split; reflexivity. }
  rewrite each_qubit_range by apply Hs. cbn [Checked.bind].
  rewrite measure_range.
  - reflexivity.
  - unfold rx. rewrite (proj1 (broadcast_shape _ _ _)). apply Hs.
  - unfold rx. rewrite (proj1 (proj2 (broadcast_shape _ _ _))). apply Hs.
Qed.

Lemma edge_ok_intro (n : nat) (edges : list (Edge R)) :
  (forall u v w, In (u, v, w) edges ->
     - Z.of_nat n <= u < Z.of_nat n /\ - Z.of_nat n <= v < Z.of_nat n /\
     Checked.position n u <> Checked.position n v) ->
  forallb (Checked.edge_ok n) edges = true.
Proof.
  intros H. apply forallb_forall. intros [[u v] w] He.
  destruct (H u v w He) as (Hu & Hv & Hne).
  unfold Checked.edge_ok, Checked.in_register.
  repeat (apply andb_true_iff; split);
    try (apply Z.leb_le; lia); try (apply Z.ltb_lt; lia).
  apply negb_true_iff. now apply Z.eqb_neq.
Qed.

Lemma edge_ok_refuted (n : nat) (edges : list (Edge R)) (u v : Z) (w : R) :
  In (u, v, w) edges ->
  ~ (- Z.of_nat n <= u < Z.of_nat n /\ - Z.of_nat n <= v < Z.of_nat n /\
     Checked.position n u <> Checked.position n v) ->
  forallb (Checked.edge_ok n) edges = false.
Proof.
  intros He Hbad. destruct (forallb (Checked.edge_ok n) edges) eqn:E; [|reflexivity].
  exfalso. apply Hbad. rewrite forallb_forall in E. specialize (E _ He).
  unfold Checked.edge_ok, Checked.in_register in E.
  apply andb_true_iff in E as [E Hne]. apply andb_true_iff in E as [Hu Hv].
  apply andb_true_iff in Hu as [Hu1 Hu2]. apply andb_true_iff in Hv as [Hv1 Hv2].
  apply Z.leb_le in Hu1, Hv1. apply Z.ltb_lt in Hu2, Hv2.
  apply negb_true_iff in Hne. apply Z.eqb_neq in Hne. repeat split; assumption.
Qed.

Lemma resolved_edge_gates (n : nat) (gamma : R) (edges : list (Edge R)) :
  flat_map (edge_gates gamma) (map (Checked.resolved_edge n) edges)
  = flat_map (fun e : Edge R =>
       let '(u, v, w) := e in
       [ CUGate (of_int 0) (of_int 0) (mul (mul (of_int (-2)) gamma) w) (of_int 0)
           (Checked.position n u) (Checked.position n v);
         UGate (of_int 0) (of_int 0) (mul gamma w) (Checked.position n u);
         UGate (of_int 0) (of_int 0) (mul gamma w) (Checked.position n v) ]) edges.
Proof.
  induction edges as [|[[u v] w] edges IH]; [reflexivity|].
  cbn [map flat_map]. rewrite IH. reflexivity.
Qed.

(** C4 (amended).  The ansatz is built exactly when there is at least one
    qubit and every edge [(u, v, w)] has both node indices in
    [-n .. n-1], denoting two different qubits (a negative index counts
    from the end: [u + n]).  It is then the circuit on [n] qubits and [n]
    classical bits whose instructions are: a Hadamard on each qubit; a
    barrier; for each edge in list order a controlled phase gate of angle
    [-2*gamma*w] on the qubits of [(u, v)] and phase gates of angle
    [gamma*w] on the qubit of [u] and on the qubit of [v]; a barrier; an
    X-rotation of angle [2*beta] on each qubit; a measurement of each
    qubit [i] into classical bit [i].  With no qubit, or with an edge that
    is out of range or joins a qubit to itself, the operation raises
    [CircuitError]. *)
Theorem create_qaoa_circuit_checked_gates
    (n : nat) (edges : list (Edge R)) (gamma beta : R) :
  ((1 <= n)%nat ->
   (forall u v w, In (u, v, w) edges ->
      - Z.of_nat n <= u < Z.of_nat n /\ - Z.of_nat n <= v < Z.of_nat n /\
      Checked.position n u <> Checked.position n v) ->
   exists qc,
     Checked.create_qaoa_circuit (QAOA.mk n) edges gamma beta = Checked.Built qc /\
     num_qubits qc = n /\ num_clbits qc = n /\
     data qc =
       map HGate (Py.range n)
       ++ [Barrier (Py.range n)]
       ++ flat_map (fun e : Edge R =>
             let '(u, v, w) := e in
             [ CUGate (of_int 0) (of_int 0) (mul (mul (of_int (-2)) gamma) w)
                 (of_int 0) (Checked.position n u) (Checked.position n v);
               UGate (of_int 0) (of_int 0) (mul gamma w) (Checked.position n u);
               UGate (of_int 0) (of_int 0) (mul gamma w) (Checked.position n v) ])
           edges
       ++ [Barrier (Py.range n)]
       ++ map (RXGate (mul (of_int 2) beta)) (Py.range n)
       ++ map (fun i => Measure i i) (Py.range n))
  /\
  (n = 0%nat ->
   Checked.create_qaoa_circuit (QAOA.mk n) edges gamma beta = Checked.CircuitError)
  /\
  (forall u v w, In (u, v, w) edges ->
     ~ (- Z.of_nat n <= u < Z.of_nat n /\ - Z.of_nat n <= v < Z.of_nat n /\
        Checked.position n u <> Checked.position n v) ->
     Checked.create_qaoa_circuit (QAOA.mk n) edges gamma beta = Checked.CircuitError).
Proof.
  rewrite create_qaoa_circuit_checked. split; [|split].
  - intros Hn Hok. rewrite (edge_ok_intro n edges Hok).
    replace (1 <=? n)%nat with true by (symmetry; now apply Nat.leb_le).
    eexists. split; [reflexivity|].
    split; [apply create_qaoa_circuit_shape|].
    split; [apply create_qaoa_circuit_shape|].
    rewrite create_qaoa_circuit_data. unfold ansatz_gates.
    now rewrite resolved_edge_gates.
  - intros ->. reflexivity.
  - intros u v w He Hbad. rewrite (edge_ok_refuted n edges u v w He Hbad).
    now rewrite andb_false_r.
Qed.

End CheckedFacts.

(** The ansatz on no qubit, with an edge outside the register, and with an
    edge from a qubit to itself: each raises [CircuitError], where the
    recorded instruction list would hold a gate.  An edge given with a
    negative index is recorded on the qubit the index denotes. *)
Lemma create_qaoa_circuit_rejects :
  Checked.create_qaoa_circuit (QAOA.mk 0) [] 1%Q 1%Q = Checked.CircuitError /\
  Checked.create_qaoa_circuit (QAOA.mk 2) [(0, 5, 1%Q)] 1%Q 1%Q
  = Checked.CircuitError /\
  Checked.create_qaoa_circuit (QAOA.mk 2) [(1, 1, 1%Q)] 1%Q 1%Q
  = Checked.CircuitError /\
  Checked.create_qaoa_circuit (QAOA.mk 2) [(0, -1, 1%Q)] 1%Q 1%Q
  = Checked.create_qaoa_circuit (QAOA.mk 2) [(0, 1, 1%Q)] 1%Q 1%Q /\
  exists qc,
    Checked.create_qaoa_circuit (QAOA.mk 2) [(0, -1, 1%Q)] 1%Q 1%Q
    = Checked.Built qc /\
    In (Circuit.UGate 0%Q 0%Q (1 * 1)%Q 1) (Circuit.data qc).
Proof.
  split; [reflexivity|]. split; [reflexivity|]. split; [reflexivity|].
  split; [reflexivity|]. eexists. split; [reflexivity|]. simpl. auto 20.
Qed.

Lemma create_qaoa_circuit_checked_gates_witness :
  (exists qc,
     Checked.create_qaoa_circuit (QAOA.mk 3) [(0, 1, 1%Q); (1, -1, 2%Q)] 1%Q 1%Q
     = Checked.Built qc /\
     Circuit.num_qubits qc = 3%nat /\ Circuit.num_clbits qc = 3%nat /\
     List.length (Circuit.data qc) = 17%nat) /\
  Checked.create_qaoa_circuit (QAOA.mk 0) [(0, 1, 1%Q)] 1%Q 1%Q
  = Checked.CircuitError /\
  Checked.create_qaoa_circuit (QAOA.mk 3) [(0, 1, 1%Q); (-1, 2, 2%Q)] 1%Q 1%Q
  = Checked.CircuitError.
Proof.
  split; [|split].
  - destruct (proj1 (create_qaoa_circuit_checked_gates 3
                       [(0, 1, 1%Q); (1, -1, 2%Q)] 1%Q 1%Q))
      as (qc & Hb & Hq & Hc & Hd).
    + lia.
    + intros u v w [H | [H | []]]; injection H as <- <- <-;
        unfold Checked.position; simpl; lia.
    + exists qc. rewrite Hd. repeat split; assumption || reflexivity.
  - apply (proj1 (proj2 (create_qaoa_circuit_checked_gates 0
                           [(0, 1, 1%Q)] 1%Q 1%Q))). reflexivity.
  - apply (proj2 (proj2 (create_qaoa_circuit_checked_gates 3
                           [(0, 1, 1%Q); (-1, 2, 2%Q)] 1%Q 1%Q)) (-1) 2 2%Q).
    + simpl. auto.
    + unfold Checked.position. simpl. lia.
Defined.


(** ** The expectation value *)

Section IndexingFacts.
Import Expectation.

Lemma string_get_some (s : string) :
  forall n, (n < String.length s)%nat -> exists c, String.get n s = Some c.
Proof.
  induction s as [|a s IH]; intros n Hn; simpl in *; [lia|].
  destruct n as [|n]; [now exists a|]. apply IH. lia.
Qed.

Lemma str_getitem_valid (s : string) (i : Z) :
  valid_index s i = true -> exists c, Py.str_getitem s i = Py.Ok c.
Proof.
  unfold valid_index, Py.str_getitem. intros H.
  apply andb_true_iff in H as [H1 H2].
  apply Z.leb_le in H1. apply Z.ltb_lt in H2.
  set (n := Z.of_nat (String.length s)) in *.
  assert (Hk : exists k, (if i <? 0 then i + n else i) = k /\ 0 <= k < n).
  { destruct (Z.ltb_spec i 0); eexists; split; try reflexivity; lia. }
  destruct Hk as (k & -> & Hk).
  replace ((k <? 0) || (n <=? k)) with false
    by (symmetry; apply orb_false_iff; split; [apply Z.ltb_ge | apply Z.leb_gt]; lia).
  destruct (string_get_some s (Z.to_nat k)) as [c ->]; [subst n; lia|].
  now exists c.
Qed.

Lemma str_getitem_invalid (s : string) (i : Z) :
  valid_index s i = false -> Py.str_getitem s i = Py.Raise Py.IndexError.
Proof.
  unfold valid_index, Py.str_getitem. intros H.
  set (n := Z.of_nat (String.length s)) in *.
  assert (Hn : 0 <= n) by (subst n; lia).
  apply andb_false_iff in H.
  assert (Hb : ((if i <? 0 then i + n else i) <? 0)
               || (n <=? (if i <? 0 then i + n else i)) = true).
  { apply orb_true_iff. destruct H as [H | H].
    - apply Z.leb_gt in H. left. destruct (Z.ltb_spec i 0); apply Z.ltb_lt; lia.
    - apply Z.ltb_ge in H. right. destruct (Z.ltb_spec i 0); apply Z.leb_le; lia. }
  now rewrite Hb.
Qed.

End IndexingFacts.

Section ExpectationFacts.
Import QAOA Expectation.
Context {R : Type} {N : Num R}.

(** The inner loop returns when every lookup is in range, and otherwise
    raises [IndexError]; it raises nothing else. *)
Lemma cut_cost_in_range (s : string) (edges : list (Edge R)) :
  edges_in_range s edges = true ->
  forall cost, exists r, cut_cost s edges cost = Py.Ok r.
Proof.
  induction edges as [|[[i j] w] edges IH]; intros H cost; simpl in *.
  - now exists cost.
  - apply andb_true_iff in H as [Hij H]. apply andb_true_iff in Hij as [Hi Hj].
    destruct (str_getitem_valid s i Hi) as [a ->].
    destruct (str_getitem_valid s j Hj) as [b ->]. simpl.
    now apply IH.
Qed.

Lemma cut_cost_out_of_range (s : string) (edges : list (Edge R)) :
  edges_in_range s edges = false ->
  forall cost, cut_cost s edges cost = Py.Raise Py.IndexError.
Proof.
  induction edges as [|[[i j] w] edges IH]; intros H cost; simpl in *.
  - discriminate.
  - destruct (valid_index s i) eqn:Hi; simpl in H.
    + destruct (str_getitem_valid s i Hi) as [a ->]. simpl.
      destruct (valid_index s j) eqn:Hj; simpl in H.
      * destruct (str_getitem_valid s j Hj) as [b ->]. simpl. now apply IH.
      * now rewrite (str_getitem_invalid s j Hj).
    + now rewrite (str_getitem_invalid s i Hi).
Qed.


End ExpectationFacts.

Section ExpectationErrors.
Import QAOA Expectation.
Context {R : Type} {N : Num R}.







(** With a zero total the loop stops at its first item. *)
Lemma expectation_loop_zero_total (key : string) (count : Z)
    (rest : list (string * Z)) (edges : list (Edge R)) (acc : R) :
  expectation_loop ((key, count) :: rest) edges 0 acc
  = Py.Raise (if edges_in_range key edges
              then Py.ZeroDivisionError else Py.IndexError).
Proof.
  simpl. destruct (edges_in_range key edges) eqn:Hk.
  - destruct (cut_cost_in_range key edges Hk (of_int 0)) as [cost ->]. reflexivity.
  - now rewrite (cut_cost_out_of_range key edges Hk).
Qed.

(** C5 (amended).  When the counts sum to zero the operation returns a
    number only for the empty map, where it returns the initial [0].  On a
    non-empty map it raises at the first item: [ZeroDivisionError] when the
    first key's lookups are in range, [IndexError] otherwise. *)
Theorem compute_expectation_zero_total
    (counts : list (string * Z)) (edges : list (Edge R)) :
  Py.sum (map snd counts) = 0 ->
  compute_expectation counts edges =
    match counts with
    | [] => Py.Ok (of_int 0)
    | (key, _) :: _ =>
        Py.Raise (if edges_in_range key edges
                  then Py.ZeroDivisionError else Py.IndexError)
    end.
Proof.
  intros H. unfold compute_expectation. rewrite H.
  destruct counts as [|[key c] rest]; [reflexivity|].
  apply expectation_loop_zero_total.
Qed.



End ExpectationErrors.

(** *** Exact arithmetic *)

Section ExpectationExact.
Import QAOA Expectation.
Local Open Scope Q_scope.

Lemma cut_cost_exact (s : string) (edges : list (Edge Q)) :
  edges_in_range s edges = true ->
  forall cost, exists r,
    cut_cost s edges cost = Py.Ok r /\ r == cost + cut_value s edges.
Proof.
  induction edges as [|[[i j] w] edges IH]; intros H cost.
  - exists cost. split; [reflexivity|]. unfold cut_value, Qsum; simpl. ring.
  - simpl in H. apply andb_true_iff in H as [Hij H].
    apply andb_true_iff in Hij as [Hi Hj].
    destruct (str_getitem_valid s i Hi) as [a Ha].
    destruct (str_getitem_valid s j Hj) as [b Hb].
    simpl. rewrite Ha, Hb. simpl.
    destruct (IH H (if Ascii.eqb a b then cost else cost + w)) as (r & -> & Hr).
    exists r. split; [reflexivity|]. rewrite Hr.
    unfold cut_value, Qsum, endpoints_differ, endpoint_bit. simpl.
    rewrite Ha, Hb. destruct (Ascii.eqb a b); simpl; ring.
Qed.

Lemma expectation_loop_exact (total : Z) (edges : list (Edge Q)) :
  (total <> 0)%Z ->
  forall items, indices_in_range items edges = true ->
  forall acc, exists r,
    expectation_loop items edges total acc = Py.Ok r /\
    r == acc + Qsum (map (fun kv => cut_value (fst kv) edges * inject_Z (snd kv)
                                    / inject_Z total) items).
Proof.
  intros Ht. induction items as [|[s c] items IH]; intros H acc.
  - exists acc. split; [reflexivity|]. unfold Qsum; simpl. ring.
  - simpl in H. apply andb_true_iff in H as [Hs H].
    destruct (cut_cost_exact s edges Hs (of_int 0%Z)) as (cost & Hc & Hcost).
    cbn [expectation_loop]. rewrite Hc. cbn [Py.bind]. unfold true_div.
    destruct (Z.eqb_spec total 0); [contradiction|]. cbn [Py.bind].
    destruct (IH H (add acc (div (mul cost (of_int c)) (of_int total))))
      as (r & -> & Hr).
    exists r. split; [reflexivity|]. rewrite Hr, Hcost.
    unfold Qsum; simpl. unfold Qdiv. ring.
Qed.

Lemma Qsum_div (A : Type) (f : A -> Q) (t : Q) (l : list A) :
  Qsum (map (fun x => f x / t) l) == Qsum (map f l) / t.
Proof.
  induction l as [|x l IH]; unfold Qsum in *; simpl.
  - unfold Qdiv. ring.
  - rewrite IH. unfold Qdiv. ring.
Qed.

Lemma expectation_exact (counts : list (string * Z)) (edges : list (Edge Q)) :
  (0 < Py.sum (map snd counts))%Z ->
  indices_in_range counts edges = true ->
  exists v, compute_expectation counts edges = Py.Ok v /\
            v == expectation_spec counts edges.
Proof.
  intros Ht Hr. unfold compute_expectation.
  destruct (expectation_loop_exact (Py.sum (map snd counts)) edges
              ltac:(lia) counts Hr (of_int 0%Z)) as (v & Hv & Hval).
  exists v. split; [exact Hv|]. rewrite Hval. unfold expectation_spec.
  rewrite (Qsum_div _ (fun kv => cut_value (fst kv) edges * inject_Z (snd kv))).
  simpl. ring.
Qed.

End ExpectationExact.

Section ExpectationClaims.
Import QAOA Expectation.
Local Open Scope string_scope.

(** C1 (amended).  For every counts map with positive total and every edge
    list whose node indices are valid indices of every bitstring key, the
    operation returns, in exact arithmetic, the sum over the bitstrings of
    cut value times count, divided by the total number of shots.  On the two
    examples of the specification it returns 0 and 3, in exact arithmetic
    and in binary64 alike. *)
Theorem compute_expectation_weighted_cut :
  (forall (counts : list (string * Z)) (edges : list (Edge Q)),
      0 < Py.sum (map snd counts) ->
      indices_in_range counts edges = true ->
      exists v, compute_expectation counts edges = Py.Ok v /\
                (v == expectation_spec counts edges)%Q)
  /\ ((exists v, compute_expectation [("0000", 500); ("1111", 500)] path4 = Py.Ok v
                 /\ (v == 0)%Q)
      /\ compute_expectation [("0000", 500); ("1111", 500)] path4 = Py.Ok 0%float)
  /\ ((exists v, compute_expectation [("0101", 1000)] path4 = Py.Ok v
                 /\ (v == 3)%Q)
      /\ compute_expectation [("0101", 1000)] path4 = Py.Ok 3%float).
Proof.
  split; [exact expectation_exact|].
  split; split.
  - eexists; split; [vm_compute; reflexivity | reflexivity].
  - vm_compute; reflexivity.
  - eexists; split; [vm_compute; reflexivity | reflexivity].
  - vm_compute; reflexivity.
Qed.

Lemma compute_expectation_weighted_cut_witness :
  0 < Py.sum (map snd [("0101", 1000)]) /\
  indices_in_range [("0101", 1000)] (@path4 Q _) = true /\
  exists v, compute_expectation [("0101", 1000)] path4 = Py.Ok v /\
            Qeq v (expectation_spec [("0101", 1000)] path4).
Proof.
  split; [reflexivity|]. split; [reflexivity|].
  exact (proj1 compute_expectation_weighted_cut
           [("0101", 1000)] path4 eq_refl eq_refl).
Defined.

(** In binary64 the order of operations is observable: three terms 1/10
    sum to 0.30000000000000004 (0x1.3333333333334p-2), where dividing their
    sum 3 by 10 gives the double nearest to 0.3 (0x1.3333333333333p-2). *)
Lemma binary64_terms_round :
  compute_expectation [("010", 1); ("011", 1); ("100", 1); ("000", 7)]
                      [(0, 1, 1%float)]
  = Py.Ok 0x1.3333333333334p-2%float /\
  PrimFloat.div (PrimFloat.add (PrimFloat.add 1 1) 1) 10
  = 0x1.3333333333333p-2%float.
Proof. split; vm_compute; reflexivity. Qed.

(** A key too short for an edge: the total is positive and the operation
    raises instead of returning the weighted cut. *)
Lemma compute_expectation_short_key :
  0 < Py.sum (map snd [("0", 1)]) /\
  compute_expectation [("0", 1)] [(0, 1, 1%Q)] = Py.Raise Py.IndexError.
Proof. split; reflexivity. Qed.

Lemma compute_expectation_zero_total_witness :
  Py.sum (map snd [("0000", 0); ("1111", 0)]) = 0 /\
  compute_expectation [("0000", 0); ("1111", 0)] (@path4 Q _)
  = Py.Raise Py.ZeroDivisionError.
Proof.
  split; [reflexivity|].
  exact (compute_expectation_zero_total
           [("0000", 0); ("1111", 0)] (@path4 Q _) eq_refl).
Defined.

(** The empty map has total zero and yet yields a number. *)
Lemma compute_expectation_empty_counts :
  Py.sum (map snd (@nil (string * Z))) = 0 /\
  compute_expectation [] (@path4 Q _) = Py.Ok 0%Q /\
  compute_expectation [] (@path4 float _) = Py.Ok 0%float.
Proof. repeat split; reflexivity. Qed.



End ExpectationClaims.

(** ** Ideal simulation of the ansatz *)

Section SimulatorFacts.
Import Circuit QAOA Ansatz Simulator.
Local Open Scope R_scope.

Lemma Cmul_comm (a b : C) : Cmul a b = Cmul b a.
Proof. destruct a, b; unfold Cmul; simpl; f_equal; ring. Qed.

Lemma Cmul_assoc (a b c : C) : Cmul a (Cmul b c) = Cmul (Cmul a b) c.
Proof. destruct a, b, c; unfold Cmul; simpl; f_equal; ring. Qed.

Lemma Cmul_1_l (a : C) : Cmul C1 a = a.
Proof. destruct a; unfold Cmul, C1; simpl; f_equal; ring. Qed.

Lemma upd_same (q : Z) (x : Basis) : upd q (x q) x = x.
Proof.
  apply functional_extensionality; intros i. unfold upd.
  destruct (Z.eqb_spec i q); [now subst|reflexivity].
Qed.

Lemma upd_eq (q : Z) (b : bool) (x : Basis) : x q = b -> upd q b x = x.
Proof. intros <-. apply upd_same. Qed.

Lemma half_zero : 0 / 2 = 0.
Proof. lra. Qed.

(** With [theta = phi = 0] the U gate is a phase on the 1 component. *)
Lemma u_phase (lam : R) (q : Z) (psi : State) :
  apply1 (u_matrix 0 0 lam) q psi = diag (fun x => phase_if (x q) lam) psi.
Proof.
  apply functional_extensionality; intros x.
  unfold apply1, diag, phase_if, u_matrix. cbn [m00 m01 m10 m11].
  rewrite half_zero, Rplus_0_l. unfold cis. rewrite cos_0, sin_0.
  destruct (x q) eqn:E.
  - rewrite (upd_eq q true x E).
    destruct (psi (upd q false x)), (psi x).
    unfold Cadd, Cmul, Cscale; simpl; f_equal; ring.
  - rewrite (upd_eq q false x E).
    destruct (psi (upd q true x)), (psi x).
    unfold Cadd, Cmul, Cscale, C1; simpl; f_equal; ring.
Qed.

(** With [theta = phi = gamma = 0] the CU gate is a phase on the component
    where control and target are both 1. *)
Lemma cu_phase (lam : R) (c t : Z) (psi : State) :
  controlled c (apply1 (scale_matrix (cis 0) (u_matrix 0 0 lam)) t) psi
  = diag (fun x => phase_if (x c && x t) lam) psi.
Proof.
  apply functional_extensionality; intros x.
  unfold controlled, diag, phase_if.
  destruct (x c); simpl andb; [|now rewrite Cmul_1_l].
  unfold apply1, scale_matrix, u_matrix. cbn [m00 m01 m10 m11].
  rewrite half_zero, Rplus_0_l. unfold cis. rewrite cos_0, sin_0.
  destruct (x t) eqn:E.
  - rewrite (upd_eq t true x E).
    destruct (psi (upd t false x)), (psi x).
    unfold Cadd, Cmul, Cscale; simpl; f_equal; ring.
  - rewrite (upd_eq t false x E).
    destruct (psi (upd t true x)), (psi x).
    unfold Cadd, Cmul, Cscale, C1; simpl; f_equal; ring.
Qed.

Lemma diag_diag (d1 d2 : Basis -> C) (psi : State) :
  diag d1 (diag d2 psi) = diag (fun x => Cmul (d1 x) (d2 x)) psi.
Proof.
  apply functional_extensionality; intros x. unfold diag. apply Cmul_assoc.
Qed.

Lemma diag_swap (d1 d2 : Basis -> C) (psi : State) :
  diag d1 (diag d2 psi) = diag d2 (diag d1 psi).
Proof.
  rewrite !diag_diag. f_equal.
  apply functional_extensionality; intros x. apply Cmul_comm.
Qed.

Lemma run_app (g1 g2 : list (Instruction R)) (psi : State) :
  run (g1 ++ g2) psi = run g2 (run g1 psi).
Proof. unfold run. apply fold_left_app. Qed.

(** The three gates of an edge multiply every amplitude by the edge's phase. *)
Lemma run_edge_gates (gamma : R) (e : Edge R) (psi : State) :
  run (edge_gates gamma e) psi = diag (edge_phase gamma e) psi.
Proof.
  destruct e as [[k l] w]. unfold run, edge_gates, edge_phase. simpl.
  rewrite cu_phase, !u_phase, !diag_diag. reflexivity.
Qed.

(** The whole cost layer, as the fold of the edge phases. *)
Lemma run_cost_layer (gamma : R) (edges : list (Edge R)) :
  forall psi,
    run (flat_map (edge_gates gamma) edges) psi
    = fold_left (fun s e => diag (edge_phase gamma e) s) edges psi.
Proof.
  induction edges as [|e edges IH]; intros psi; [reflexivity|].
  cbn [flat_map fold_left]. rewrite run_app, run_edge_gates. apply IH.
Qed.

(** The edge phases commute, so the cost layer does not depend on the order
    of the edges. *)
Lemma cost_layer_permutation (gamma : R) (edges edges' : list (Edge R)) :
  Permutation edges edges' ->
  forall psi,
    fold_left (fun s e => diag (edge_phase gamma e) s) edges psi
    = fold_left (fun s e => diag (edge_phase gamma e) s) edges' psi.
Proof.
  induction 1 as [| e l l' _ IH | e1 e2 l | l1 l2 l3 _ IH1 _ IH2]; intros psi.
  - reflexivity.
  - simpl. apply IH.
  - simpl. now rewrite diag_swap.
  - now rewrite IH1.
Qed.

Lemma final_state_permutation (n : nat) (edges edges' : list (Edge R))
    (gamma beta : R) :
  Permutation edges edges' ->
  final_state (create_qaoa_circuit (QAOA.mk n) edges gamma beta)
  = final_state (create_qaoa_circuit (QAOA.mk n) edges' gamma beta).
Proof.
  intros Hp. unfold final_state.
  rewrite !create_qaoa_circuit_data.
  rewrite !(proj1 (create_qaoa_circuit_shape n _ gamma beta)).
  unfold ansatz_gates. rewrite !run_app, !run_cost_layer.
  now rewrite (cost_layer_permutation gamma edges edges' Hp).
Qed.

End SimulatorFacts.

(** C9.  For every edge list and every permutation of it, the two ansatz
    circuits (same qubit count, gamma and beta) have the same measurement
    distribution under ideal simulation: every edge contributes a diagonal
    phase, and diagonal phases commute. *)
Theorem ansatz_distribution_permutation
    (n : nat) (edges edges' : list (QAOA.Edge R)) (gamma beta : R) :
  Permutation edges edges' ->
  forall x : Simulator.Basis,
    Simulator.measurement_distribution
      (QAOA.create_qaoa_circuit (QAOA.mk n) edges gamma beta) x
    = Simulator.measurement_distribution
        (QAOA.create_qaoa_circuit (QAOA.mk n) edges' gamma beta) x.
Proof.
  intros Hp x. unfold Simulator.measurement_distribution.
  now rewrite (final_state_permutation n edges edges' gamma beta Hp).
Qed.

Lemma ansatz_distribution_permutation_witness :
  Permutation [(0, 1, 1%R); (1, 2, 1%R)] [(1, 2, 1%R); (0, 1, 1%R)] /\
  Simulator.measurement_distribution
    (QAOA.create_qaoa_circuit (QAOA.mk 3) [(0, 1, 1%R); (1, 2, 1%R)] 1%R 1%R)
    (fun _ => false)
  = Simulator.measurement_distribution
      (QAOA.create_qaoa_circuit (QAOA.mk 3) [(1, 2, 1%R); (0, 1, 1%R)] 1%R 1%R)
      (fun _ => false).
Proof.
  split; [apply perm_swap|].
  apply (ansatz_distribution_permutation 3
           [(0, 1, 1%R); (1, 2, 1%R)] [(1, 2, 1%R); (0, 1, 1%R)] 1%R 1%R).
  apply perm_swap.
Defined.

(** ** The router *)

Section RouterFacts.
Import Circuit QubitRouter.
Context {R Entropy TranspilerError : Type}.
Variable transpile :
  QuantumCircuit R -> TranspileArgs -> Entropy ->
  TranspilerError + QuantumCircuit R.
Variables (depth size : QuantumCircuit R -> Z).
Variable count_ops : QuantumCircuit R -> list (string * Z).

(** [decompose_circuit] is one transpiler call: a second decomposition is a
    second transpiler call on the output of the first. *)
Lemma decompose_circuit_call (self : QubitRouter.t) (circuit : QuantumCircuit R)
    (level : Z) (entropy : Entropy) :
  decompose_circuit transpile self circuit level entropy
  = transpile circuit
      (mkArgs (Some (self_basis_gates self)) None None None (Some level) None)
      entropy.
Proof. reflexivity. Qed.




End RouterFacts.

Section RouterCounterexample.
Import Circuit QubitRouter.


End RouterCounterexample.

(* ================================================================== *)
(** * Further properties of the generators *)

(** ** The bit-flip code on basis states and on amplitudes *)

Section RepetitionFacts.
Import Circuit QuantumErrorCorrection Simulator Repetition.
Local Open Scope R_scope.

(** With at most one flipped qubit the decoder returns the encoded bit on
    qubit 0; qubits 1 and 2 are reset only when nothing was flipped, and
    otherwise hold values that depend on the encoded bit. *)
Theorem code_cycle_single_flip (b : bool) :
  code_cycle b [] = Some (b, false, false) /\
  code_cycle b [0%Z] = Some (b, negb b, true) /\
  code_cycle b [1%Z] = Some (b, true, b) /\
  code_cycle b [2%Z] = Some (b, b, negb b).
Proof. destruct b; repeat split; reflexivity. Qed.

Lemma code_cycle_first_qubit (b : bool) (flips : list Z) :
  In flips [[]; [0]; [1]; [2]]%Z ->
  exists q1 q2, code_cycle b flips = Some (b, q1, q2).
Proof.
  intros Hin. simpl in Hin.
  destruct Hin as [<- | [<- | [<- | [<- | []]]]]; destruct b;
    eexists; eexists; reflexivity.
Qed.

(** With two or three flipped qubits the decoder returns the complement of
    the encoded bit on qubit 0. *)
Theorem code_cycle_two_flips (b : bool) (flips : list Z) :
  In flips [[0; 1]; [0; 2]; [1; 2]; [0; 1; 2]]%Z ->
  exists q1 q2, code_cycle b flips = Some (negb b, q1, q2).
Proof.
  intros Hin. simpl in Hin.
  destruct Hin as [<- | [<- | [<- | [<- | []]]]]; destruct b;
    eexists; eexists; reflexivity.
Qed.

Lemma code_cycle_two_flips_witness :
  In [0; 2]%Z [[0; 1]; [0; 2]; [1; 2]; [0; 1; 2]]%Z /\
  exists q1 q2, code_cycle true [0; 2]%Z = Some (negb true, q1, q2).
Proof.
  split; [simpl; auto|].
  apply (code_cycle_two_flips true [0; 2]%Z). simpl; auto.
Defined.

(** Among the patterns of at most two flipped data qubits, the double-error
    decoder returns the five-qubit codeword only when nothing was flipped or
    when qubit 2 alone was. *)
Theorem double_decoder_restores_only (b : bool) (p : list Z) :
  In p flip_patterns ->
  double_decoder_restores b p = same_pattern p [] || same_pattern p [2%Z].
Proof.
  intros Hin. unfold flip_patterns in Hin. simpl in Hin.
  repeat (destruct Hin as [<- | Hin]; [destruct b; reflexivity|]).
  contradiction.
Qed.

Lemma double_decoder_restores_only_witness :
  In [1%Z] flip_patterns /\
  double_decoder_restores true [1%Z] = false.
Proof.
  split; [unfold flip_patterns; simpl; auto|].
  apply (double_decoder_restores_only true [1%Z]).
  unfold flip_patterns; simpl; auto.
Defined.

Lemma flip_flip (q : Z) (x : Basis) : flip q (flip q x) = x.
Proof.
  apply functional_extensionality; intros i. unfold flip, upd.
  destruct (Z.eqb_spec i q) as [-> | Hne].
  - rewrite Z.eqb_refl. apply negb_involutive.
  - reflexivity.
Qed.

Lemma flip_other (q c : Z) (x : Basis) : c <> q -> flip q x c = x c.
Proof.
  intros Hne. unfold flip, upd. destruct (Z.eqb_spec c q); [contradiction|reflexivity].
Qed.

(** The X gate moves every amplitude to the basis state with qubit [q]
    flipped. *)
Lemma apply1_x (q : Z) (psi : State) (y : Basis) :
  apply1 x_matrix q psi y = psi (flip q y).
Proof.
  unfold apply1, x_matrix, flip. cbn [m00 m01 m10 m11].
  destruct (y q); simpl negb;
    destruct (psi (upd q false y)), (psi (upd q true y));
    unfold Cadd, Cmul, C0, C1; simpl; f_equal; ring.
Qed.

Lemma apply_permutation_gate (g : Instruction R) (psi : State) (x y : Basis) :
  is_permutation_gate g = true ->
  classical_step g x = Some y ->
  apply_instruction g psi y = psi x.
Proof.
  destruct g as [q | c t | c1 c2 t | | | | q c | qs]; simpl; try discriminate;
    intros Hwf [= <-]; try reflexivity.
  - apply negb_true_iff, Z.eqb_neq in Hwf. unfold controlled.
    destruct (x c) eqn:Hc.
    + rewrite (flip_other t c x Hwf), Hc, apply1_x, flip_flip. reflexivity.
    + now rewrite Hc.
  - apply andb_true_iff in Hwf as [H1 H2].
    apply negb_true_iff, Z.eqb_neq in H1. apply negb_true_iff, Z.eqb_neq in H2.
    unfold controlled.
    destruct (x c1) eqn:Hc1, (x c2) eqn:Hc2; cbn [andb];
      rewrite ?(flip_other t c1 x H1), ?(flip_other t c2 x H2), ?Hc1, ?Hc2;
      try reflexivity.
    now rewrite apply1_x, flip_flip.
Qed.

(** A circuit of CNOT and Toffoli gates moves the amplitude of every basis
    state to the basis state its bit flips lead to. *)
Lemma run_permutation_gates (gates : list (Instruction R)) :
  forallb is_permutation_gate gates = true ->
  forall (psi : State) (x y : Basis),
    classical_run gates x = Some y -> run gates psi y = psi x.
Proof.
  induction gates as [|g gates IH]; intros Hwf psi x y Hrun; simpl in *.
  - now injection Hrun as <-.
  - apply andb_true_iff in Hwf as [Hg Hwf].
    destruct (classical_step g x) as [z|] eqn:Hz; [|discriminate].
    unfold run in *. simpl.
    rewrite (IH Hwf (apply_instruction g psi) z y Hrun).
    now apply apply_permutation_gate.
Qed.

Lemma x_errors_flip_all (flips : list Z) (psi : State) (x : Basis) :
  x_errors flips psi (flip_all flips x) = psi x.
Proof.
  induction flips as [|q flips IH]; simpl; [reflexivity|].
  now rewrite apply1_x, flip_flip.
Qed.

(** Encoding, any bit-flip error and decoding move the amplitude a state has
    on the basis state [b,0,0] to the basis state the cycle reaches from it. *)
Lemma code_cycle_lift (psi : State) (b : bool) (flips : list Z) :
  exists y : Basis,
    code_cycle b flips = Some (y 0%Z, y 1%Z, y 2%Z) /\
    run (data (@create_single_error_decoder R))
        (x_errors flips (run (data (@create_encoder R)) psi)) y
    = psi (logical b).
Proof.
  unfold code_cycle.
  destruct (classical_run (data (@create_encoder R)) (logical b))
    as [encoded|] eqn:He; [|discriminate He].
  destruct (classical_run (data (@create_single_error_decoder R))
              (flip_all flips encoded)) as [y|] eqn:Hd; [|discriminate Hd].
  exists y. split; [reflexivity|].
  rewrite (run_permutation_gates (data (@create_single_error_decoder R))
             eq_refl _ _ _ Hd), x_errors_flip_all.
  apply (run_permutation_gates (data (@create_encoder R)) eq_refl _ _ _ He).
Qed.

(** Under ideal simulation, after encoding, an X error on at most one of the
    three qubits and decoding, the amplitude the input state had on the basis
    state [b,0,0] sits on a basis state whose qubit 0 is [b]. *)
Theorem code_cycle_amplitude (psi : State) (b : bool) (flips : list Z) :
  In flips [[]; [0]; [1]; [2]]%Z ->
  exists y : Basis,
    y 0%Z = b /\
    code_cycle b flips = Some (y 0%Z, y 1%Z, y 2%Z) /\
    run (data (@create_single_error_decoder R))
        (x_errors flips (run (data (@create_encoder R)) psi)) y
    = psi (logical b).
Proof.
  intros Hin. destruct (code_cycle_lift psi b flips) as (y & Hc & Hamp).
  exists y. split; [|split; assumption].
  destruct (code_cycle_first_qubit b flips Hin) as (q1 & q2 & Hq).
  congruence.
Qed.

Lemma code_cycle_amplitude_witness :
  In [1%Z] [[]; [0]; [1]; [2]]%Z /\
  exists y : Basis,
    y 0%Z = true /\
    code_cycle true [1%Z] = Some (y 0%Z, y 1%Z, y 2%Z) /\
    run (data (@create_single_error_decoder R))
        (x_errors [1%Z] (run (data (@create_encoder R)) (ket0 3))) y
    = ket0 3 (logical true).
Proof.
  split; [simpl; auto|].
  apply (code_cycle_amplitude (ket0 3) true [1%Z]). simpl; auto.
Defined.

End RepetitionFacts.

(** ** Circuit metrics *)

Section MetricsFacts.
Import Circuit QAOA Ansatz CircuitBenchmarker.
Context {R : Type} {N : Num R}.

Lemma sum_of_ones_from {A : Type} (l : list A) :
  forall acc, fold_left Z.add (map (fun _ => 1) l) acc = acc + Z.of_nat (List.length l).
Proof.
  induction l as [|x l IH]; intros acc; simpl List.length; simpl map; simpl fold_left.
  - lia.
  - rewrite IH. lia.
Qed.

Lemma nonlocal_gates_count (qc : QuantumCircuit R) :
  nonlocal_gates qc
  = Z.of_nat (List.length (filter (fun inst => (1 <? List.length (qargs inst))%nat)
                                  (data qc))).
Proof. unfold nonlocal_gates, Py.sum. now rewrite sum_of_ones_from. Qed.

Lemma filter_map_none {A B : Type} (f : A -> B) (p : B -> bool) (l : list A) :
  (forall a, p (f a) = false) -> filter p (map f l) = [].
Proof.
  intros H. induction l as [|a l IH]; simpl; [reflexivity|]. now rewrite H.
Qed.

Lemma nonlocal_edge_gates (gamma : R) (edges : list (Edge R)) :
  List.length (filter (fun inst => (1 <? List.length (qargs inst))%nat)
                      (flat_map (edge_gates gamma) edges))
  = List.length edges.
Proof.
  induction edges as [|[[k l] w] edges IH]; simpl; [reflexivity|]. now rewrite IH.
Qed.

Lemma range_length (n : nat) : List.length (Py.range n) = n.
Proof. unfold Py.range. now rewrite length_map, length_seq. Qed.

(** The [nonlocal_gates] metric of the ansatz counts one gate per edge and,
    because a barrier spans every qubit, the two barriers as soon as the
    circuit has two qubits. *)
Theorem nonlocal_gates_ansatz (n : nat) (edges : list (Edge R)) (gamma beta : R) :
  nonlocal_gates (create_qaoa_circuit (QAOA.mk n) edges gamma beta)
  = Z.of_nat (List.length edges) + (if (2 <=? n)%nat then 2 else 0).
Proof.
  rewrite nonlocal_gates_count, create_qaoa_circuit_data. unfold ansatz_gates.
  rewrite !filter_app, !length_app.
  rewrite !filter_map_none by reflexivity.
  rewrite nonlocal_edge_gates. simpl filter.
  rewrite range_length.
  destruct n as [|[|n]]; simpl; lia.
Qed.

End MetricsFacts.

Section CompareFacts.
Import Circuit CircuitBenchmarker.
Variables (depth width size : QuantumCircuit Q -> Z).
Variable count_ops : QuantumCircuit Q -> list (string * Z).

Lemma self_ratio_one (m : Z) :
  m <> 0 -> (div (of_int m) (of_int m) == 1)%Q.
Proof.
  intros Hm. apply Qmult_inv_r. intros H. apply Hm.
  unfold Qeq in H. simpl in H. lia.
Qed.

(** Comparing a circuit with itself: the dictionary holds exactly the keys
    [<metric>_diff] and [<metric>_ratio] of the six integer metrics, in
    that order and none for [gate_counts]; every difference is 0; the
    ratio of a metric is [inf] when the metric is 0 and a number equal to
    1 otherwise. *)
Theorem compare_circuits_self (circuit : QuantumCircuit Q) :
  let result := compare_circuits depth width size count_ops circuit circuit in
  map fst result
  = [ "depth_diff"; "depth_ratio"; "width_diff"; "width_ratio";
      "size_diff"; "size_ratio"; "num_qubits_diff"; "num_qubits_ratio";
      "num_clbits_diff"; "num_clbits_ratio";
      "nonlocal_gates_diff"; "nonlocal_gates_ratio" ]%string /\
  forall (key : string) (m : Z),
    In (key, m)
       (int_items (analyze_circuit_metrics depth width size count_ops circuit)) ->
    In ((key ++ "_diff")%string, @Diff Q 0) result /\
    (m = 0 -> In ((key ++ "_ratio")%string, @Inf Q) result) /\
    (m <> 0 ->
     exists r, In ((key ++ "_ratio")%string, @Ratio Q r) result /\ (r == 1)%Q).
Proof.
  cbv zeta. split; [reflexivity|].
  intros key m Hin.
  unfold compare_circuits, compare_entry, int_items, analyze_circuit_metrics in *.
  cbn [combine flat_map fst snd app m_depth m_width m_size m_num_qubits
       m_num_clbits m_nonlocal_gates] in *.
  rewrite !Z.sub_diag.
  repeat (destruct Hin as [Hin | Hin];
          [injection Hin as <- <-; split; [simpl; auto 20|]; split;
           [intros Hm; rewrite Hm; simpl; auto 20
           |intros Hm; eexists; split; [|apply (self_ratio_one _ Hm)];
            match goal with
            | |- context [negb (?x =? 0)] =>
                match type of Hm with
                | x <> 0 => destruct (Z.eqb_spec x 0); [contradiction|]
                end
            end; simpl; auto 20]|]).
  contradiction.
Qed.

(** The differences are antisymmetric.  For an integer metric with value
    [m1] on the first circuit and [m2] on the second, the comparison holds
    [<metric>_diff = m2 - m1] and the swapped comparison holds its
    negation.  A difference is stored only under a [_diff] key of an
    integer metric, where the swapped comparison holds its negation, and
    the value under such a key is a difference, never a ratio. *)
Theorem compare_circuits_swap (circuit1 circuit2 : QuantumCircuit Q) :
  let result12 := compare_circuits depth width size count_ops circuit1 circuit2 in
  let result21 := compare_circuits depth width size count_ops circuit2 circuit1 in
  let metrics :=
    [ "depth"; "width"; "size"; "num_qubits"; "num_clbits";
      "nonlocal_gates" ]%string in
  (forall (key : string) (m1 m2 : Z),
      In (key, m1)
         (int_items (analyze_circuit_metrics depth width size count_ops circuit1)) ->
      In (key, m2)
         (int_items (analyze_circuit_metrics depth width size count_ops circuit2)) ->
      In ((key ++ "_diff")%string, @Diff Q (m2 - m1)) result12 /\
      In ((key ++ "_diff")%string, @Diff Q (- (m2 - m1))) result21) /\
  (forall (key : string) (z : Z),
      In (key, @Diff Q z) result12 ->
      In (key, @Diff Q (- z)) result21 /\
      exists metric, In metric metrics /\ key = (metric ++ "_diff")%string) /\
  (forall (metric : string) (v : Comparison Q),
      In metric metrics ->
      In ((metric ++ "_diff")%string, v) result12 ->
      exists z, v = @Diff Q z).
Proof.
  cbv zeta.
  unfold compare_circuits, compare_entry, int_items, analyze_circuit_metrics.
  cbn [combine flat_map fst snd app m_depth m_width m_size m_num_qubits
       m_num_clbits m_nonlocal_gates].
  split; [|split].
  - intros key m1 m2 H1 H2.
    repeat (destruct H1 as [H1 | H1];
            [injection H1 as <- <-;
             repeat (destruct H2 as [H2 | H2];
                     [first [discriminate H2
                            |injection H2 as <-;
                             rewrite Z.opp_sub_distr, Z.add_comm;
                             split; simpl; auto 20]|]);
             contradiction|]).
    contradiction.
  - intros key z Hin.
    repeat (destruct Hin as [Hin | Hin];
            [first [ injection Hin as <- <-; rewrite Z.opp_sub_distr, Z.add_comm;
                     split; [simpl; auto 20|];
                     first [ exists "depth"%string; split; [simpl; auto 10|reflexivity]
                           | exists "width"%string; split; [simpl; auto 10|reflexivity]
                           | exists "size"%string; split; [simpl; auto 10|reflexivity]
                           | exists "num_qubits"%string; split; [simpl; auto 10|reflexivity]
                           | exists "num_clbits"%string; split; [simpl; auto 10|reflexivity]
                           | exists "nonlocal_gates"%string; split; [simpl; auto 10|reflexivity] ]
                   | match type of Hin with
                     | (_, (if ?c then _ else _)) = _ => destruct c; discriminate Hin
                     end ]|]).
    contradiction.
  - intros metric v Hm Hin.
    repeat (destruct Hm as [Hm | Hm];
            [subst metric;
             repeat (destruct Hin as [Hin | Hin];
                     [first [ injection Hin as <-; eexists; reflexivity
                            | discriminate Hin
                            | exfalso; injection Hin as Hin _; discriminate Hin ]|]);
             contradiction|]).
    contradiction.
Qed.

End CompareFacts.

Lemma compare_circuits_self_witness :
  In ("size_diff"%string, @CircuitBenchmarker.Diff Q 0)
     (CircuitBenchmarker.compare_circuits
        (fun _ => 0) (fun _ => 0)
        (fun qc => Z.of_nat (List.length (Circuit.data qc)))
        (fun _ => []) RouterExamples.chain3 RouterExamples.chain3)
  /\ In ("depth_ratio"%string, @CircuitBenchmarker.Inf Q)
        (CircuitBenchmarker.compare_circuits
           (fun _ => 0) (fun _ => 0)
           (fun qc => Z.of_nat (List.length (Circuit.data qc)))
           (fun _ => []) RouterExamples.chain3 RouterExamples.chain3)
  /\ exists r,
       In ("size_ratio"%string, @CircuitBenchmarker.Ratio Q r)
          (CircuitBenchmarker.compare_circuits
             (fun _ => 0) (fun _ => 0)
             (fun qc => Z.of_nat (List.length (Circuit.data qc)))
             (fun _ => []) RouterExamples.chain3 RouterExamples.chain3)
       /\ (r == 1)%Q.
Proof.
  pose proof (proj2 (compare_circuits_self
                       (fun _ => 0) (fun _ => 0)
                       (fun qc => Z.of_nat (List.length (Circuit.data qc)))
                       (fun _ => []) RouterExamples.chain3)) as H.
  cbv zeta in H. split; [|split].
  - apply (H "size"%string 2). simpl. auto 10.
  - apply (H "depth"%string 0); [simpl; auto 10 | reflexivity].
  - apply (H "size"%string 2); [simpl; auto 10 | discriminate].
Defined.

(** ** Random graphs *)

Section RandomGraphFacts.
Import QAOA Expectation QAOABenchmarker PyFormat.
Context {R : Type} {N : Num R} {O : Ord R} {S : Type}.
Variable random : S -> R * S.
Variable uniform : R -> R -> S -> R * S.

Lemma in_range_from (a b j : Z) : In j (range_from a b) -> a <= j < b.
Proof.
  unfold range_from. intros H. apply in_map_iff in H as (k & <- & Hk).
  apply in_seq in Hk. lia.
Qed.

Lemma in_py_range (n : nat) (i : Z) : In i (Py.range n) <-> 0 <= i < Z.of_nat n.
Proof.
  unfold Py.range. rewrite in_map_iff. split.
  - intros (k & <- & Hk). apply in_seq in Hk. lia.
  - intros H. exists (Z.to_nat i). split; [lia|]. apply in_seq. lia.
Qed.

Lemma random_row_edges (i : Z) (p : R) (js : list Z) :
  forall edges rng e,
    In e (fst (random_row random uniform i js p edges rng)) ->
    In e edges \/ exists j w, e = (i, j, w) /\ In j js.
Proof.
  induction js as [|j js IH]; intros edges rng e He; simpl in He; [now left|].
  destruct (random rng) as [x rng1].
  destruct (ltb x p).
  - destruct (uniform _ _ rng1) as [w rng2].
    apply IH in He as [He | (j' & w' & -> & Hj)].
    + apply in_app_or in He as [He | [<- | []]]; [now left|].
      right. exists j, w. simpl; auto.
    + right. exists j', w'. simpl; auto.
  - apply IH in He as [He | (j' & w' & -> & Hj)]; [now left|].
    right. exists j', w'. simpl; auto.
Qed.

Lemma random_rows_edges (n : nat) (p : R) (rows : list Z) :
  forall edges rng e,
    In e (fst (random_rows random uniform rows n p edges rng)) ->
    In e edges \/
    exists i j w, e = (i, j, w) /\ In i rows /\ i + 1 <= j < Z.of_nat n.
Proof.
  induction rows as [|i rows IH]; intros edges rng e He; simpl in He; [now left|].
  destruct (random_row random uniform i (range_from (i + 1) (Z.of_nat n)) p edges rng)
    as [edges1 rng1] eqn:Hrow.
  apply IH in He as [He | (i' & j & w & -> & Hi & Hj)].
  - pose proof (random_row_edges i p (range_from (i + 1) (Z.of_nat n)) edges rng e) as Hr.
    rewrite Hrow in Hr. destruct (Hr He) as [H | (j & w & -> & Hj)]; [now left|].
    right. exists i, j, w. split; [reflexivity|]. split; [simpl; auto|].
    now apply in_range_from.
  - right. exists i', j, w. simpl; auto.
Qed.

(** Whatever the generator draws, every edge of the random graph joins two
    different nodes of the graph, the smaller one first. *)
Theorem generate_random_graph_edges (n_nodes : nat) (p : R) (rng : S)
    (i j : Z) (w : R) :
  In (i, j, w) (fst (generate_random_graph random uniform n_nodes p rng)) ->
  0 <= i < j /\ j < Z.of_nat n_nodes.
Proof.
  intros H. unfold generate_random_graph in H.
  apply random_rows_edges in H as [[] | (i' & j' & w' & [= -> -> ->] & Hi & Hj)].
  apply in_py_range in Hi. lia.
Qed.


End RandomGraphFacts.

Lemma generate_random_graph_edges_witness :
  In (0, 1, (1 # 2)%Q)
     (fst (QAOABenchmarker.generate_random_graph
             BenchmarkExamples.counter_random BenchmarkExamples.counter_uniform
             3 (1 # 2)%Q 0))
  /\ (0 <= 0 < 1 /\ 1 < Z.of_nat 3).
Proof.
  assert (H : In (0, 1, (1 # 2)%Q)
     (fst (QAOABenchmarker.generate_random_graph
             BenchmarkExamples.counter_random BenchmarkExamples.counter_uniform
             3 (1 # 2)%Q 0))) by (vm_compute; auto).
  split; [exact H|].
  exact (generate_random_graph_edges _ _ _ _ _ _ _ _ H).
Defined.


(** ** Binary formatting *)

Section FormatFacts.
Import PyFormat Cuts.
Local Open Scope string_scope.

Lemma string_length_app (s1 s2 : string) :
  String.length (s1 ++ s2) = (String.length s1 + String.length s2)%nat.
Proof. induction s1; simpl; congruence. Qed.

Lemma string_app_assoc (s1 s2 s3 : string) : (s1 ++ s2) ++ s3 = s1 ++ (s2 ++ s3).
Proof. induction s1; simpl; congruence. Qed.

Lemma string_app_nil_r (s : string) : s ++ "" = s.
Proof. induction s; simpl; congruence. Qed.

Lemma all_bits_app (s1 s2 : string) :
  all_bits (s1 ++ s2) = all_bits s1 && all_bits s2.
Proof.
  induction s1 as [|c s1 IH]; simpl; [reflexivity|].
  rewrite IH. now rewrite andb_assoc.
Qed.

Lemma zeros_length (n : nat) : String.length (zeros n) = n.
Proof. induction n; simpl; congruence. Qed.

Lemma zeros_bits (n : nat) : all_bits (zeros n) = true.
Proof. induction n; simpl; auto. Qed.

Lemma zeros_snoc (n : nat) : zeros n ++ "0" = zeros (S n).
Proof. induction n; simpl in *; congruence. Qed.

Lemma pos_digits_app (p : positive) :
  forall acc, pos_digits p acc = pos_digits p "" ++ acc.
Proof.
  induction p as [p IH | p IH |]; intros acc; simpl.
  - rewrite (IH (String "1" acc)), (IH "1"), string_app_assoc. reflexivity.
  - rewrite (IH (String "0" acc)), (IH "0"), string_app_assoc. reflexivity.
  - reflexivity.
Qed.

Lemma pos_digits_length (p : positive) :
  forall acc,
    String.length (pos_digits p acc) = (Pos.size_nat p + String.length acc)%nat.
Proof.
  induction p as [p IH | p IH |]; intros acc; simpl; try rewrite IH; simpl; lia.
Qed.

Lemma pos_digits_bits (p : positive) :
  forall acc, all_bits acc = true -> all_bits (pos_digits p acc) = true.
Proof.
  induction p as [p IH | p IH |]; intros acc H; simpl; try apply IH; simpl; auto.
Qed.

Lemma size_nat_bound (p : positive) :
  forall n : nat, (Z.pos p < 2 ^ Z.of_nat n)%Z -> (Pos.size_nat p <= n)%nat.
Proof.
  induction p as [p IH | p IH |]; intros n H; simpl.
  - destruct n as [|n]; [simpl in H; lia|].
    rewrite Nat2Z.inj_succ, Z.pow_succ_r in H by lia.
    specialize (IH n). lia.
  - destruct n as [|n]; [simpl in H; lia|].
    rewrite Nat2Z.inj_succ, Z.pow_succ_r in H by lia.
    specialize (IH n). lia.
  - destruct n as [|n]; [simpl in H; lia|lia].
Qed.

(** Formatting a number below [2^n] on [n >= 1] digits gives a bitstring of
    exactly [n] characters. *)
Lemma format_bin_bitstring (n : nat) (i : Z) :
  (1 <= n)%nat -> (0 <= i < 2 ^ Z.of_nat n)%Z ->
  is_bitstring n (format_bin n i) = true.
Proof.
  intros Hn Hi. unfold is_bitstring, format_bin.
  destruct i as [|p|p]; [| |lia].
  - rewrite string_length_app, zeros_length, all_bits_app, zeros_bits. simpl.
    apply andb_true_iff; split; [apply Nat.eqb_eq; lia|reflexivity].
  - pose proof (size_nat_bound p n (proj2 Hi)) as Hs.
    rewrite string_length_app, zeros_length, all_bits_app, zeros_bits.
    rewrite pos_digits_length, pos_digits_bits by reflexivity. simpl.
    apply andb_true_iff; split; [apply Nat.eqb_eq; lia|reflexivity].
Qed.

Lemma bits_value_bounds (s : string) :
  forall acc, (0 <= acc)%Z ->
    (acc * 2 ^ Z.of_nat (String.length s) <= bits_value s acc
     < (acc + 1) * 2 ^ Z.of_nat (String.length s))%Z.
Proof.
  induction s as [|c s IH]; intros acc Hacc; cbn [bits_value String.length].
  - simpl. lia.
  - rewrite Nat2Z.inj_succ, Z.pow_succ_r by lia.
    assert (Hpow : (0 < 2 ^ Z.of_nat (String.length s))%Z)
      by (apply Z.pow_pos_nonneg; lia).
    set (P := (2 ^ Z.of_nat (String.length s))%Z) in *.
    destruct (Ascii.eqb c "1").
    + specialize (IH (2 * acc + 1)%Z ltac:(lia)). nia.
    + specialize (IH (2 * acc + 0)%Z ltac:(lia)). nia.
Qed.

(** A positive value read so far, followed by the bits of [s], is written
    back as its own digits followed by [s]. *)
Lemma bit_char (c : ascii) :
  Ascii.eqb c "0" || Ascii.eqb c "1" = true -> c = "0"%char \/ c = "1"%char.
Proof.
  intros H. apply orb_true_iff in H as [H | H]; apply Ascii.eqb_eq in H; auto.
Qed.

Lemma bits_value_digits (s : string) :
  all_bits s = true ->
  forall p : positive,
    exists q : positive,
      bits_value s (Z.pos p) = Z.pos q /\
      pos_digits q "" = pos_digits p "" ++ s.
Proof.
  induction s as [|c s IH]; intros Hs p; cbn [bits_value].
  - exists p. now rewrite string_app_nil_r.
  - simpl in Hs. apply andb_true_iff in Hs as [Hc Hs].
    destruct (bit_char c Hc) as [-> | ->]; simpl Ascii.eqb; cbv iota.
    + destruct (IH Hs (p~0)%positive) as (q & Hq & Hd).
      exists q. split; [rewrite <- Hq; f_equal; lia|]. rewrite Hd. simpl.
      rewrite (pos_digits_app p "0"), string_app_assoc. reflexivity.
    + destruct (IH Hs (p~1)%positive) as (q & Hq & Hd).
      exists q. split; [rewrite <- Hq; f_equal; lia|]. rewrite Hd. simpl.
      rewrite (pos_digits_app p "1"), string_app_assoc. reflexivity.
Qed.

(** Every non-empty bitstring is the format of the number it denotes. *)
Lemma format_bin_bits_value (s : string) :
  all_bits s = true -> s <> "" ->
  format_bin (String.length s) (bits_value s 0) = s.
Proof.
  induction s as [|c s IH]; intros Hs Hne; [contradiction|].
  simpl in Hs. apply andb_true_iff in Hs as [Hc Hs].
  cbn [bits_value String.length].
  destruct (bit_char c Hc) as [-> | ->]; simpl Ascii.eqb; cbv iota.
  - change (2 * 0 + 0)%Z with 0%Z. destruct s as [|c' s'].
    + reflexivity.
    + assert (Hne' : String c' s' <> "") by discriminate.
      specialize (IH Hs Hne').
      remember (String c' s') as t eqn:Ht.
      assert (Hlen : (1 <= String.length t)%nat) by (subst t; simpl; lia).
      unfold format_bin in *.
      destruct (bits_value t 0) as [|p|p].
      * replace (S (String.length t) - 1)%nat with (S (String.length t - 1)) by lia.
        simpl. now rewrite IH.
      * assert (Hd : (String.length (pos_digits p "") <= String.length t)%nat).
        { apply (f_equal String.length) in IH.
          rewrite string_length_app, zeros_length in IH. lia. }
        replace (S (String.length t) - String.length (pos_digits p ""))%nat
          with (S (String.length t - String.length (pos_digits p ""))) by lia.
        simpl. now rewrite IH.
      * apply (f_equal (fun x => String.get 0 x)) in IH. simpl in IH.
        subst t. simpl in Hs. apply andb_true_iff in Hs as [Hc' _].
        injection IH as <-. discriminate Hc'.
  - change (2 * 0 + 1)%Z with 1%Z.
    destruct (bits_value_digits s Hs 1%positive) as (q & Hq & Hd).
    rewrite Hq. unfold format_bin. rewrite Hd. simpl.
    rewrite Nat.sub_diag. reflexivity.
Qed.

(** Every bitstring of [n >= 1] characters is among the formatted numbers
    below [2^n]. *)
Lemma bitstring_enumerated (n : nat) (s : string) :
  (1 <= n)%nat -> is_bitstring n s = true ->
  exists i : Z, In i (Py.range (2 ^ n)) /\ format_bin n i = s.
Proof.
  intros Hn H. unfold is_bitstring in H.
  apply andb_true_iff in H as [Hlen Hbits]. apply Nat.eqb_eq in Hlen.
  exists (bits_value s 0). split.
  - apply in_py_range. rewrite Nat2Z.inj_pow. simpl Z.of_nat.
    pose proof (bits_value_bounds s 0 ltac:(lia)) as Hb. rewrite Hlen in Hb.
    change (Z.of_nat 2) with 2%Z. lia.
  - rewrite <- Hlen. apply format_bin_bits_value; [assumption|].
    intros ->. simpl in Hlen. lia.
Qed.

End FormatFacts.

(** ** Brute-force MaxCut *)

Section MaxcutGeneric.
Import QAOA Expectation QAOABenchmarker PyFormat Cuts.
Context {R : Type} {N : Num R} {O : Ord R}.

Lemma edges_in_range_length (s t : string) (edges : list (Edge R)) :
  String.length s = String.length t ->
  edges_in_range s edges = edges_in_range t edges.
Proof.
  intros H. unfold edges_in_range, valid_index. now rewrite H.
Qed.

Lemma pow2_succ (n : nat) : exists k, (2 ^ n)%nat = S k.
Proof.
  destruct (2 ^ n)%nat as [|k] eqn:E; [|now exists k].
  apply Nat.pow_eq_0_iff in E. lia.
Qed.

(** When some node index is not a valid index of the first candidate (the
    string of [n_nodes] zeros, or ["0"] for an empty graph), the search
    raises [IndexError] before it compares any cut. *)
Theorem compute_classical_maxcut_index_error
    (edges : list (Edge R)) (n_nodes : nat) :
  edges_in_range (format_bin n_nodes 0) edges = false ->
  compute_classical_maxcut edges n_nodes = Py.Raise Py.IndexError.
Proof.
  intros H. unfold compute_classical_maxcut, Py.range.
  destruct (pow2_succ n_nodes) as [k ->]. simpl.
  now rewrite (cut_cost_out_of_range _ edges H).
Qed.

End MaxcutGeneric.

Lemma compute_classical_maxcut_index_error_witness :
  Expectation.edges_in_range (PyFormat.format_bin 3 0) [(0, 3, 1%Q)] = false /\
  QAOABenchmarker.compute_classical_maxcut [(0, 3, 1%Q)] 3
  = Py.Raise Py.IndexError.
Proof.
  split; [reflexivity|].
  exact (compute_classical_maxcut_index_error [(0, 3, 1%Q)] 3 eq_refl).
Defined.

Section MaxcutExact.
Import QAOA Expectation QAOABenchmarker PyFormat Cuts.
Local Open Scope Q_scope.

Lemma gtb_true (a b : Q) : gtb a b = true -> b < a.
Proof.
  unfold gtb; simpl. intros H. apply negb_true_iff in H.
  apply Qnot_le_lt. intros Hle. apply Qle_bool_iff in Hle. congruence.
Qed.

Lemma gtb_false (a b : Q) : gtb a b = false -> a <= b.
Proof.
  unfold gtb; simpl. intros H. apply negb_false_iff in H.
  now apply Qle_bool_iff.
Qed.

Lemma bitstring_in_range (n : nat) (edges : list (Edge Q)) (s : string) :
  edges_in_range (zeros n) edges = true ->
  is_bitstring n s = true -> edges_in_range s edges = true.
Proof.
  intros Hr Hs. unfold is_bitstring in Hs.
  apply andb_true_iff in Hs as [Hlen _]. apply Nat.eqb_eq in Hlen.
  rewrite (edges_in_range_length s (zeros n)); [assumption|].
  now rewrite zeros_length.
Qed.

Lemma cut_cost_value (s : string) (edges : list (Edge Q)) :
  edges_in_range s edges = true ->
  exists r, cut_cost s edges (of_int 0%Z) = Py.Ok r /\ r == cut_value s edges.
Proof.
  intros H. destruct (cut_cost_exact s edges H (of_int 0%Z)) as (r & Hr & Hv).
  exists r. split; [assumption|]. rewrite Hv. simpl. ring.
Qed.

(** The loop keeps the largest cut value met so far, and the candidate that
    first reached it. *)
Lemma maxcut_loop_spec (n : nat) (edges : list (Edge Q)) :
  edges_in_range (zeros n) edges = true ->
  forall candidates,
    (forall i, In i candidates -> is_bitstring n (format_bin n i) = true) ->
    forall (m : Q) (best : option string),
    exists m' best',
      maxcut_loop candidates n edges m best = Py.Ok (m', best') /\
      m <= m' /\
      (forall i, In i candidates -> cut_value (format_bin n i) edges <= m') /\
      ((m' = m /\ best' = best) \/
       (exists i, In i candidates /\ best' = Some (format_bin n i) /\
                  cut_value (format_bin n i) edges == m' /\ m < m')).
Proof.
  intros Hr. induction candidates as [|i rest IH]; intros Hc m best.
  - exists m, best. split; [reflexivity|]. split; [apply Qle_refl|].
    split; [intros i []|]. now left.
  - assert (Hi : edges_in_range (format_bin n i) edges = true)
      by (apply (bitstring_in_range n); [assumption|apply Hc; now left]).
    destruct (cut_cost_value _ edges Hi) as (r & Hcost & Hv).
    assert (Hrest : forall j, In j rest -> is_bitstring n (format_bin n j) = true)
      by (intros j Hj; apply Hc; now right).
    cbn [maxcut_loop]. rewrite Hcost. cbn [Py.bind].
    destruct (gtb r m) eqn:Hg.
    + apply gtb_true in Hg.
      destruct (IH Hrest r (Some (format_bin n i)))
        as (m' & best' & Hloop & Hle & Hall & Hbest).
      exists m', best'. split; [exact Hloop|].
      split; [apply Qlt_le_weak; eapply Qlt_le_trans; eassumption|].
      split.
      * intros j [<- | Hj]; [now rewrite <- Hv|now apply Hall].
      * right. destruct Hbest as [[-> ->] | (j & Hj & -> & Hcut & Hlt)].
        -- exists i. split; [now left|]. split; [reflexivity|].
           split; [now symmetry|assumption].
        -- exists j. split; [now right|]. split; [reflexivity|].
           split; [assumption|]. eapply Qlt_trans; eassumption.
    + apply gtb_false in Hg.
      destruct (IH Hrest m best) as (m' & best' & Hloop & Hle & Hall & Hbest).
      exists m', best'. split; [exact Hloop|]. split; [assumption|].
      split.
      * intros j [<- | Hj]; [|now apply Hall].
        rewrite <- Hv. eapply Qle_trans; eassumption.
      * destruct Hbest as [[-> ->] | (j & Hj & -> & Hcut & Hlt)]; [now left|].
        right. exists j. split; [now right|]. auto.
Qed.

Lemma candidates_are_bitstrings (n : nat) (i : Z) :
  (1 <= n)%nat -> In i (Py.range (2 ^ n)) ->
  is_bitstring n (format_bin n i) = true.
Proof.
  intros Hn Hi. apply format_bin_bitstring; [assumption|].
  apply in_py_range in Hi. rewrite Nat2Z.inj_pow in Hi. exact Hi.
Qed.

(** The brute-force search is optimal.  For a graph on [n >= 1] nodes whose
    node indices are valid, it returns a value no bitstring of [n]
    characters exceeds as a cut; the reported cut is a bitstring of [n]
    characters that attains this value, which is then positive; and when no
    cut is reported the value is 0. *)
Theorem compute_classical_maxcut_optimal (edges : list (Edge Q)) (n : nat) :
  (1 <= n)%nat ->
  edges_in_range (zeros n) edges = true ->
  exists (m : Q) (best : option string),
    compute_classical_maxcut edges n = Py.Ok (m, best) /\
    (forall s, is_bitstring n s = true -> cut_value s edges <= m) /\
    match best with
    | Some s => is_bitstring n s = true /\ cut_value s edges == m /\ 0 < m
    | None => m == 0
    end.
Proof.
  intros Hn Hr. unfold compute_classical_maxcut.
  destruct (maxcut_loop_spec n edges Hr (Py.range (2 ^ n))
              (fun i Hi => candidates_are_bitstrings n i Hn Hi)
              (of_int 0%Z) None)
    as (m & best & Hloop & Hle & Hall & Hbest).
  exists m, best. split; [exact Hloop|]. split.
  - intros s Hs. destruct (bitstring_enumerated n s Hn Hs) as (i & Hi & <-).
    now apply Hall.
  - destruct Hbest as [[-> ->] | (i & Hi & -> & Hcut & Hlt)].
    + reflexivity.
    + split; [now apply candidates_are_bitstrings|]. split; assumption.
Qed.

Lemma compute_classical_maxcut_optimal_witness :
  (1 <= 4)%nat /\
  edges_in_range (zeros 4) (@path4 Q _) = true /\
  exists (m : Q) (best : option string),
    compute_classical_maxcut path4 4 = Py.Ok (m, best) /\
    (forall s, is_bitstring 4 s = true -> cut_value s path4 <= m) /\
    match best with
    | Some s => is_bitstring 4 s = true /\ cut_value s path4 == m /\ 0 < m
    | None => m == 0
    end.
Proof.
  split; [repeat constructor|]. split; [reflexivity|].
  apply (compute_classical_maxcut_optimal path4 4);
    [repeat constructor|reflexivity].
Defined.

Lemma cut_value_nonpositive (s : string) (edges : list (Edge Q)) :
  (forall e, In e edges -> snd e <= 0) -> cut_value s edges <= 0.
Proof.
  unfold cut_value, Qsum. induction edges as [|e edges IH]; intros H; simpl.
  - apply Qle_refl.
  - assert (He : (if endpoints_differ s (fst (fst e)) (snd (fst e))
                  then snd e else 0) <= 0).
    { destruct (endpoints_differ _ _ _); [apply H; now left|apply Qle_refl]. }
    assert (Hrest : fold_right Qplus 0
              (map (fun e0 : Edge Q =>
                      if endpoints_differ s (fst (fst e0)) (snd (fst e0))
                      then snd e0 else 0) edges) <= 0)
      by (apply IH; intros e' He'; apply H; now right).
    pose proof (Qplus_le_compat _ _ _ _ He Hrest) as Hsum.
    now rewrite Qplus_0_l in Hsum.
Qed.

(** When no weight is positive, in particular on a graph without edges, the
    search reports the value [0] and no cut at all. *)
Theorem compute_classical_maxcut_no_cut (edges : list (Edge Q)) (n : nat) :
  (1 <= n)%nat ->
  edges_in_range (zeros n) edges = true ->
  (forall e, In e edges -> snd e <= 0) ->
  compute_classical_maxcut edges n = Py.Ok (0, None).
Proof.
  intros Hn Hr Hw. unfold compute_classical_maxcut.
  assert (Hloop : forall candidates,
             (forall i, In i candidates -> is_bitstring n (format_bin n i) = true) ->
             maxcut_loop candidates n edges 0 None = Py.Ok (0, None)).
  { induction candidates as [|i rest IH]; intros Hc; [reflexivity|].
    assert (Hi : edges_in_range (format_bin n i) edges = true)
      by (apply (bitstring_in_range n); [assumption|apply Hc; now left]).
    destruct (cut_cost_value _ edges Hi) as (r & Hcost & Hv).
    cbn [maxcut_loop]. rewrite Hcost. cbn [Py.bind].
    destruct (gtb r 0) eqn:Hg.
    - apply gtb_true in Hg. rewrite Hv in Hg.
      pose proof (cut_value_nonpositive (format_bin n i) edges Hw) as Hle.
      exfalso. apply (Qlt_irrefl 0). eapply Qlt_le_trans; eassumption.
    - apply IH. intros j Hj. apply Hc. now right. }
  apply Hloop. intros i Hi. now apply candidates_are_bitstrings.
Qed.

Lemma compute_classical_maxcut_no_cut_witness :
  (1 <= 3)%nat /\
  edges_in_range (zeros 3) [(0%Z, 1%Z, (-1)%Q)] = true /\
  (forall e, In e [(0%Z, 1%Z, (-1)%Q)] -> snd e <= 0) /\
  compute_classical_maxcut [(0%Z, 1%Z, (-1)%Q)] 3 = Py.Ok (0, None).
Proof.
  assert (Hw : forall e, In e [(0%Z, 1%Z, (-1)%Q)] -> snd e <= 0)
    by (intros e [<- | []]; simpl; discriminate).
  split; [repeat constructor|]. split; [reflexivity|]. split; [exact Hw|].
  exact (compute_classical_maxcut_no_cut [(0%Z, 1%Z, (-1)%Q)] 3
           ltac:(repeat constructor) eq_refl Hw).
Defined.

End MaxcutExact.

(** ** More on the expectation value *)

Section ExpectationOrder.
Import QAOA Expectation QAOABenchmarker PyFormat Cuts.
Local Open Scope Q_scope.

Lemma Qsum_perm (l l' : list Q) : Permutation l l' -> Qsum l == Qsum l'.
Proof.
  unfold Qsum. induction 1; simpl.
  - reflexivity.
  - now rewrite IHPermutation.
  - ring.
  - now rewrite IHPermutation1.
Qed.

Lemma Qsum_map_ext {A : Type} (f g : A -> Q) (l : list A) :
  (forall x, In x l -> f x == g x) -> Qsum (map f l) == Qsum (map g l).
Proof.
  unfold Qsum. induction l as [|x l IH]; intros H; simpl; [reflexivity|].
  rewrite (H x (or_introl eq_refl)), IH; [reflexivity|].
  intros y Hy. apply H. now right.
Qed.

Lemma py_sum_from (l : list Z) :
  forall acc, fold_left Z.add l acc = (acc + fold_right Z.add 0 l)%Z.
Proof.
  induction l as [|x l IH]; intros acc; simpl; [lia|]. rewrite IH. lia.
Qed.

Lemma py_sum_perm (l l' : list Z) : Permutation l l' -> Py.sum l = Py.sum l'.
Proof.
  unfold Py.sum. rewrite !py_sum_from. intros H.
  f_equal. induction H; simpl; lia.
Qed.

Lemma py_sum_Qsum (l : list Z) : inject_Z (Py.sum l) == Qsum (map inject_Z l).
Proof.
  unfold Py.sum. rewrite py_sum_from. simpl Z.add.
  unfold Qsum. induction l as [|x l IH]; simpl; [reflexivity|].
  now rewrite inject_Z_plus, IH.
Qed.

Lemma cut_value_perm (s : string) (edges edges' : list (Edge Q)) :
  Permutation edges edges' -> cut_value s edges == cut_value s edges'.
Proof.
  intros H. unfold cut_value. apply Qsum_perm. now apply Permutation_map.
Qed.

Lemma edges_in_range_perm (s : string) (edges edges' : list (Edge Q)) :
  Permutation edges edges' ->
  edges_in_range s edges = true -> edges_in_range s edges' = true.
Proof.
  unfold edges_in_range. intros Hp H. rewrite forallb_forall in *.
  intros e He. apply H. eapply Permutation_in; [apply Permutation_sym|]; eassumption.
Qed.

Lemma indices_in_range_perm (counts counts' : list (string * Z))
    (edges edges' : list (Edge Q)) :
  Permutation counts counts' -> Permutation edges edges' ->
  indices_in_range counts edges = true -> indices_in_range counts' edges' = true.
Proof.
  unfold indices_in_range. intros Hc He H. rewrite forallb_forall in *.
  intros kv Hkv. apply (edges_in_range_perm _ edges edges' He). apply H.
  eapply Permutation_in; [apply Permutation_sym|]; eassumption.
Qed.

Lemma expectation_spec_perm (counts counts' : list (string * Z))
    (edges edges' : list (Edge Q)) :
  Permutation counts counts' -> Permutation edges edges' ->
  expectation_spec counts edges == expectation_spec counts' edges'.
Proof.
  intros Hc He. unfold expectation_spec.
  rewrite (py_sum_perm (map snd counts) (map snd counts'))
    by now apply Permutation_map.
  apply Qmult_comp; [|reflexivity].
  rewrite (Qsum_map_ext
             (fun kv => cut_value (fst kv) edges * inject_Z (snd kv))
             (fun kv => cut_value (fst kv) edges' * inject_Z (snd kv))).
  - apply Qsum_perm. now apply Permutation_map.
  - intros kv _. now rewrite (cut_value_perm (fst kv) edges edges' He).
Qed.

(** In exact arithmetic the expectation value depends neither on the order
    of the items of the counts dictionary nor on the order of the edges. *)
Theorem compute_expectation_order (counts counts' : list (string * Z))
    (edges edges' : list (Edge Q)) :
  Permutation counts counts' -> Permutation edges edges' ->
  (0 < Py.sum (map snd counts))%Z ->
  indices_in_range counts edges = true ->
  exists v v',
    compute_expectation counts edges = Py.Ok v /\
    compute_expectation counts' edges' = Py.Ok v' /\
    v == v'.
Proof.
  intros Hc He Ht Hr.
  destruct (expectation_exact counts edges Ht Hr) as (v & Hv & Hval).
  assert (Ht' : (0 < Py.sum (map snd counts'))%Z).
  { rewrite <- (py_sum_perm (map snd counts) (map snd counts'));
      [assumption|now apply Permutation_map]. }
  destruct (expectation_exact counts' edges' Ht'
              (indices_in_range_perm _ _ _ _ Hc He Hr)) as (v' & Hv' & Hval').
  exists v, v'. split; [assumption|]. split; [assumption|].
  rewrite Hval, Hval'. now apply expectation_spec_perm.
Qed.

Lemma compute_expectation_order_witness :
  Permutation [("0101"%string, 600%Z); ("0011"%string, 400%Z)]
              [("0011"%string, 400%Z); ("0101"%string, 600%Z)] /\
  Permutation (@path4 Q _) (rev path4) /\
  exists v v',
    compute_expectation [("0101"%string, 600%Z); ("0011"%string, 400%Z)] path4
    = Py.Ok v /\
    compute_expectation [("0011"%string, 400%Z); ("0101"%string, 600%Z)] (rev path4)
    = Py.Ok v' /\
    v == v'.
Proof.
  split; [apply perm_swap|]. split; [apply Permutation_rev|].
  apply (compute_expectation_order
           [("0101"%string, 600%Z); ("0011"%string, 400%Z)]
           [("0011"%string, 400%Z); ("0101"%string, 600%Z)] path4 (rev path4));
    [apply perm_swap | apply Permutation_rev | reflexivity | reflexivity].
Defined.

Lemma maxcut_upper_bound (edges : list (Edge Q)) (n : nat) (m : Q)
    (best : option string) :
  (1 <= n)%nat ->
  edges_in_range (zeros n) edges = true ->
  compute_classical_maxcut edges n = Py.Ok (m, best) ->
  forall s, is_bitstring n s = true -> cut_value s edges <= m.
Proof.
  intros Hn Hr Hm s Hs. unfold compute_classical_maxcut in Hm.
  destruct (maxcut_loop_spec n edges Hr (Py.range (2 ^ n))
              (fun i Hi => candidates_are_bitstrings n i Hn Hi)
              (of_int 0%Z) None)
    as (m' & best' & Hloop & _ & Hall & _).
  rewrite Hloop in Hm. injection Hm as -> _.
  destruct (bitstring_enumerated n s Hn Hs) as (i & Hi & <-).
  now apply Hall.
Qed.

Lemma weighted_sum_bound (m : Q) (edges : list (Edge Q)) (counts : list (string * Z)) :
  (forall key count, In (key, count) counts ->
     cut_value key edges <= m /\ (0 <= count)%Z) ->
  Qsum (map (fun kv => cut_value (fst kv) edges * inject_Z (snd kv)) counts)
  <= m * Qsum (map inject_Z (map snd counts)).
Proof.
  unfold Qsum. induction counts as [|[key count] counts IH]; intros H; simpl.
  - rewrite Qmult_0_r. apply Qle_refl.
  - destruct (H key count (or_introl eq_refl)) as [Hcut Hc].
    assert (Hq : 0 <= inject_Z count)
      by (change 0 with (inject_Z 0); now rewrite <- Zle_Qle).
    rewrite Qmult_plus_distr_r. apply Qplus_le_compat.
    + now apply Qmult_le_compat_r.
    + apply IH. intros k c Hk. apply H. now right.
Qed.

(** The expectation of counts over bitstrings of [n] characters never
    exceeds the value the brute-force search returns for the same graph. *)
Theorem compute_expectation_le_maxcut (edges : list (Edge Q)) (n : nat)
    (counts : list (string * Z)) (m : Q) (best : option string) :
  (1 <= n)%nat ->
  edges_in_range (zeros n) edges = true ->
  (forall key count, In (key, count) counts ->
     is_bitstring n key = true /\ (0 <= count)%Z) ->
  (0 < Py.sum (map snd counts))%Z ->
  compute_classical_maxcut edges n = Py.Ok (m, best) ->
  exists v, compute_expectation counts edges = Py.Ok v /\ v <= m.
Proof.
  intros Hn Hr Hkeys Ht Hm.
  assert (Hin : indices_in_range counts edges = true).
  { unfold indices_in_range. apply forallb_forall. intros [key count] Hk.
    apply (bitstring_in_range n); [assumption|]. now apply (Hkeys key count). }
  destruct (expectation_exact counts edges Ht Hin) as (v & Hv & Hval).
  exists v. split; [assumption|]. rewrite Hval. unfold expectation_spec.
  assert (HT : 0 < inject_Z (Py.sum (map snd counts)))
    by (change 0 with (inject_Z 0); now rewrite <- Zlt_Qlt).
  apply Qle_shift_div_r; [assumption|].
  rewrite py_sum_Qsum. apply weighted_sum_bound.
  intros key count Hk. destruct (Hkeys key count Hk) as [Hb Hc].
  split; [|assumption]. now apply (maxcut_upper_bound edges n m best).
Qed.

Lemma compute_expectation_le_maxcut_witness :
  (0 < Py.sum (map snd [("0101"%string, 600%Z); ("0011"%string, 400%Z)]))%Z /\
  compute_classical_maxcut (@path4 Q _) 4 = Py.Ok (3, Some "0101"%string) /\
  exists v,
    compute_expectation [("0101"%string, 600%Z); ("0011"%string, 400%Z)] path4
    = Py.Ok v /\ v <= 3.
Proof.
  split; [reflexivity|]. split; [reflexivity|].
  apply (compute_expectation_le_maxcut path4 4
           [("0101"%string, 600%Z); ("0011"%string, 400%Z)] 3 (Some "0101"%string));
    [repeat constructor | reflexivity | | reflexivity | reflexivity].
  intros key count [H | [H | []]]; injection H as <- <-;
    (split; [reflexivity|discriminate]).
Defined.

End ExpectationOrder.

(** ** Accuracy of a QAOA run *)

Section AccuracyFacts.
Import QAOA Expectation QAOABenchmarker PyFormat Cuts.
Local Open Scope Q_scope.

Lemma quantum_cuts_spec (items : list (string * Z)) (edges : list (Edge Q)) :
  indices_in_range items edges = true ->
  exists cuts,
    quantum_cuts items edges = Py.Ok cuts /\
    List.length cuts = List.length items /\
    forall state v, In (state, v) cuts ->
      (exists count, In (state, count) items) /\ v == cut_value state edges.
Proof.
  induction items as [|[state count] items IH]; intros H.
  - exists []. split; [reflexivity|]. split; [reflexivity|]. intros s v [].
  - simpl in H. apply andb_true_iff in H as [Hs H].
    destruct (cut_cost_value state edges Hs) as (r & Hr & Hv).
    destruct (IH H) as (cuts & Hcuts & Hlen & Hall).
    exists ((state, r) :: cuts). cbn [quantum_cuts].
    rewrite Hr. cbn [Py.bind]. rewrite Hcuts. cbn [Py.bind].
    split; [reflexivity|]. split; [simpl; congruence|].
    intros s v [[= <- <-] | Hin].
    + split; [exists count; now left|assumption].
    + destruct (Hall s v Hin) as [(c & Hc) Hcut].
      split; [exists c; now right|assumption].
Qed.

Lemma fold_max_spec (rest : list Q) :
  forall v0 b,
    fold_left (fun m x => if gtb x m then x else m) rest v0 = b ->
    (b = v0 \/ In b rest) /\ v0 <= b /\ forall v, In v rest -> v <= b.
Proof.
  induction rest as [|x rest IH]; intros v0 b Hb; cbn [fold_left] in Hb.
  - subst b. split; [now left|]. split; [apply Qle_refl|]. intros v [].
  - destruct (gtb x v0) eqn:Hg.
    + apply gtb_true in Hg. destruct (IH x b Hb) as (Hin & Hle & Hall).
      split; [destruct Hin as [-> | Hin]; [right; now left|right; now right]|].
      split; [apply Qlt_le_weak; eapply Qlt_le_trans; eassumption|].
      intros v [<- | Hv]; [assumption|now apply Hall].
    + apply gtb_false in Hg. destruct (IH v0 b Hb) as (Hin & Hle & Hall).
      split; [destruct Hin as [-> | Hin]; [now left|right; now right]|].
      split; [assumption|].
      intros v [<- | Hv]; [eapply Qle_trans; eassumption|now apply Hall].
Qed.

Lemma py_max_spec (values : list Q) :
  values <> [] ->
  exists b, py_max values = Done b /\ In b values /\
            forall v, In v values -> v <= b.
Proof.
  destruct values as [|v0 rest]; intros Hne; [contradiction|].
  destruct (fold_max_spec rest v0 _ eq_refl) as (Hb & Hle & Hall).
  eexists. split; [reflexivity|]. split.
  - destruct Hb as [-> | Hb]; [now left|now right].
  - intros v [<- | Hv]; [assumption|now apply Hall].
Qed.

Lemma fold_add_Qsum (values : list Q) :
  forall acc, fold_left add values acc == acc + Qsum values.
Proof.
  unfold Qsum. induction values as [|v values IH]; intros acc; simpl.
  - ring.
  - rewrite IH. simpl. ring.
Qed.

Lemma Qsum_le_bound (m : Q) (values : list Q) :
  (forall v, In v values -> v <= m) ->
  Qsum values <= m * inject_Z (Z.of_nat (List.length values)).
Proof.
  unfold Qsum. induction values as [|v values IH]; intros H.
  - simpl. rewrite Qmult_0_r. apply Qle_refl.
  - cbn [fold_right List.length]. rewrite Nat2Z.inj_succ. unfold Z.succ.
    rewrite inject_Z_plus.
    assert (E : m * (inject_Z (Z.of_nat (List.length values)) + inject_Z 1)
                == m + m * inject_Z (Z.of_nat (List.length values)))
      by (change (inject_Z 1) with 1; ring).
    rewrite E. apply Qplus_le_compat.
    + apply H. now left.
    + apply IH. intros x Hx. apply H. now right.
Qed.

Lemma filtered_count_bounds (keep : string * Z -> bool) (items : list (string * Z)) :
  (forall key count, In (key, count) items -> (0 <= count)%Z) ->
  (0 <= Py.sum (map snd (filter keep items)) <= Py.sum (map snd items))%Z.
Proof.
  unfold Py.sum. rewrite !py_sum_from. simpl Z.add.
  induction items as [|[key count] items IH]; intros H; simpl; [lia|].
  pose proof (H key count (or_introl eq_refl)).
  assert (Hrest : forall k c, In (k, c) items -> (0 <= c)%Z)
    by (intros k c Hk; apply (H k c); now right).
  specialize (IH Hrest).
  destruct (keep (key, count)); simpl; lia.
Qed.

(** The analysis raises [ValueError] on an empty measurement dictionary,
    and [ZeroDivisionError] on a non-empty one whose states are in range
    when the classical value is zero, as it is for a graph without positive
    weights. *)
Theorem analyze_qaoa_accuracy_errors :
  (forall (classical : Q * option string) (edges : list (Edge Q)),
      analyze_qaoa_accuracy [] classical edges = Fail ValueError) /\
  (forall (solution : list (string * Z)) (classical : Q * option string)
          (edges : list (Edge Q)),
      solution <> [] ->
      indices_in_range solution edges = true ->
      fst classical == 0 ->
      analyze_qaoa_accuracy solution classical edges
      = Fail (Builtin Py.ZeroDivisionError)).
Proof.
  split; [reflexivity|].
  intros solution classical edges Hne Hr Hz.
  destruct (quantum_cuts_spec solution edges Hr) as (cuts & Hcuts & Hlen & _).
  assert (Hvals : map snd cuts <> []).
  { destruct solution; [contradiction|]. destruct cuts; [discriminate Hlen|discriminate]. }
  destruct (py_max_spec _ Hvals) as (b & Hmax & _ & _).
  unfold analyze_qaoa_accuracy. rewrite Hcuts. cbn [lift obind].
  rewrite Hmax. cbn [obind]. unfold num_div.
  replace (eqb (fst classical) (of_int 0%Z)) with true; [reflexivity|].
  symmetry. apply Qeq_bool_iff. exact Hz.
Qed.

Lemma analyze_qaoa_accuracy_errors_witness :
  analyze_qaoa_accuracy [] (3, Some "0101"%string) (@path4 Q _) = Fail ValueError /\
  analyze_qaoa_accuracy [("010"%string, 10%Z)] (0, None) [(0%Z, 1%Z, (-1)%Q)]
  = Fail (Builtin Py.ZeroDivisionError).
Proof.
  split.
  - exact (proj1 analyze_qaoa_accuracy_errors (3, Some "0101"%string) path4).
  - apply (proj2 analyze_qaoa_accuracy_errors
             [("010"%string, 10%Z)] (0, None) [(0%Z, 1%Z, (-1)%Q)]);
      [discriminate | reflexivity | reflexivity].
Defined.

(** Against the value of the brute-force search on the same graph, when
    that value is positive, the analysis of counts over bitstrings of [n]
    characters returns ratios that never exceed 1 and a success probability
    between 0 and 1. *)
Theorem analyze_qaoa_accuracy_bounds (edges : list (Edge Q)) (n : nat)
    (solution : list (string * Z)) (m : Q) (best : option string) :
  (1 <= n)%nat ->
  edges_in_range (zeros n) edges = true ->
  compute_classical_maxcut edges n = Py.Ok (m, best) ->
  0 < m ->
  (forall key count, In (key, count) solution ->
     is_bitstring n key = true /\ (0 <= count)%Z) ->
  (0 < Py.sum (map snd solution))%Z ->
  exists acc,
    analyze_qaoa_accuracy solution (m, best) edges = Done acc /\
    approximation_ratio acc <= 1 /\
    average_cut_ratio acc <= 1 /\
    0 <= success_probability acc <= 1.
Proof.
  intros Hn Hr Hm Hpos Hkeys Ht.
  assert (Hin : indices_in_range solution edges = true).
  { unfold indices_in_range. apply forallb_forall. intros [key count] Hk.
    apply (bitstring_in_range n); [assumption|]. now apply (Hkeys key count). }
  destruct (quantum_cuts_spec solution edges Hin) as (cuts & Hcuts & Hlen & Hall).
  assert (Hne : solution <> []) by (intros ->; unfold Py.sum in Ht; simpl in Ht; lia).
  assert (Hvals : map snd cuts <> []).
  { destruct solution; [contradiction|]. destruct cuts; [discriminate Hlen|discriminate]. }
  destruct (py_max_spec _ Hvals) as (b & Hmax & Hb & Hbmax).
  assert (Hbound : forall v, In v (map snd cuts) -> v <= m).
  { intros v Hv. apply in_map_iff in Hv as ([s v'] & <- & Hsv).
    destruct (Hall s v' Hsv) as [(c & Hc) Hcut]. simpl. rewrite Hcut.
    apply (maxcut_upper_bound edges n m best Hn Hr Hm).
    now apply (Hkeys s c). }
  assert (Hm0 : eqb m (of_int 0%Z) = false).
  { destruct (eqb m (of_int 0%Z)) eqn:E; [|reflexivity].
    apply Qeq_bool_iff in E. simpl in E. rewrite E in Hpos.
    exfalso. now apply (Qlt_irrefl 0). }
  assert (HT : 0 < inject_Z (Py.sum (map snd solution)))
    by (change 0 with (inject_Z 0); now rewrite <- Zlt_Qlt).
  destruct (filtered_count_bounds
              (fun sc : string * Z =>
                 match cut_of cuts (fst sc) with
                 | Some v => eqb v b
                 | None => false
                 end) solution (fun k c Hk => proj2 (Hkeys k c Hk))) as [Hs0 Hs1].
  unfold analyze_qaoa_accuracy. rewrite Hcuts. cbn [lift obind].
  rewrite Hmax. cbn [obind fst]. unfold num_div. rewrite Hm0. cbn [obind].
  unfold true_div. destruct (Z.eqb_spec (Py.sum (map snd solution)) 0); [lia|].
  cbn [lift obind]. eexists. split; [reflexivity|].
  cbn [approximation_ratio average_cut_ratio success_probability].
  split; [|split; [|split]].
  - apply Qle_shift_div_r; [assumption|]. rewrite Qmult_1_l. now apply Hbound.
  - apply Qle_shift_div_r; [assumption|]. rewrite Qmult_1_l.
    unfold mean. simpl div. simpl of_int.
    assert (Hlen0 : 0 < inject_Z (Z.of_nat (List.length (map snd cuts)))).
    { change 0 with (inject_Z 0). rewrite <- Zlt_Qlt.
      destruct (map snd cuts); [contradiction|simpl; lia]. }
    apply Qle_shift_div_r; [assumption|].
    rewrite fold_add_Qsum, Qplus_0_l. now apply Qsum_le_bound.
  - apply Qle_shift_div_l; [assumption|]. rewrite Qmult_0_l.
    unfold best_counts. simpl of_int.
    change 0 with (inject_Z 0). rewrite <- Zle_Qle. exact Hs0.
  - apply Qle_shift_div_r; [assumption|]. rewrite Qmult_1_l.
    unfold best_counts. simpl of_int. rewrite <- Zle_Qle. exact Hs1.
Qed.

Lemma analyze_qaoa_accuracy_bounds_witness :
  compute_classical_maxcut (@path4 Q _) 4 = Py.Ok (3, Some "0101"%string) /\
  exists acc,
    analyze_qaoa_accuracy [("0101"%string, 600%Z); ("0011"%string, 400%Z)]
                          (3, Some "0101"%string) path4 = Done acc /\
    approximation_ratio acc <= 1 /\
    average_cut_ratio acc <= 1 /\
    0 <= success_probability acc <= 1.
Proof.
  split; [reflexivity|].
  apply (analyze_qaoa_accuracy_bounds path4 4
           [("0101"%string, 600%Z); ("0011"%string, 400%Z)] 3 (Some "0101"%string));
    [repeat constructor | reflexivity | reflexivity | reflexivity | | reflexivity].
  intros key count [H | [H | []]]; injection H as <- <-;
    (split; [reflexivity|discriminate]).
Defined.

End AccuracyFacts.

(** ** The ansatz at the zero angles *)

Section AnsatzAngles.
Import Circuit QAOA Ansatz Simulator.
Local Open Scope R_scope.

Lemma Cnorm2_mul (a b : C) : Cnorm2 (Cmul a b) = Cnorm2 a * Cnorm2 b.
Proof. destruct a, b; unfold Cnorm2, Cmul; simpl; ring. Qed.

Lemma Cnorm2_cis (t : R) : Cnorm2 (cis t) = 1.
Proof.
  unfold Cnorm2, cis; simpl. pose proof (sin2_cos2 t) as H.
  unfold Rsqr in H. lra.
Qed.

Lemma Cnorm2_phase_if (b : bool) (t : R) : Cnorm2 (phase_if b t) = 1.
Proof.
  destruct b; simpl; [apply Cnorm2_cis|]. unfold Cnorm2, C1; simpl. ring.
Qed.

Lemma Cnorm2_edge_phase (gamma : R) (e : Edge R) (x : Basis) :
  Cnorm2 (edge_phase gamma e x) = 1.
Proof.
  destruct e as [[k l] w]. unfold edge_phase.
  rewrite !Cnorm2_mul, !Cnorm2_phase_if. ring.
Qed.

(** The cost layer changes no outcome probability. *)
Lemma cost_layer_norm (gamma : R) (edges : list (Edge R)) :
  forall (psi : State) (x : Basis),
    Cnorm2 (fold_left (fun s e => diag (edge_phase gamma e) s) edges psi x)
    = Cnorm2 (psi x).
Proof.
  induction edges as [|e edges IH]; intros psi x; simpl; [reflexivity|].
  rewrite IH. unfold diag. rewrite Cnorm2_mul, Cnorm2_edge_phase. ring.
Qed.

Lemma rx_zero (q : Z) (psi : State) : apply1 (rx_matrix (2 * 0)) q psi = psi.
Proof.
  apply functional_extensionality; intros x.
  unfold apply1, rx_matrix. cbn [m00 m01 m10 m11].
  replace (2 * 0 / 2) with 0 by lra. rewrite cos_0, sin_0.
  destruct (x q) eqn:E.
  - rewrite (upd_eq q true x E).
    destruct (psi (upd q false x)), (psi x).
    unfold Cadd, Cmul; simpl; f_equal; ring.
  - rewrite (upd_eq q false x E).
    destruct (psi (upd q true x)), (psi x).
    unfold Cadd, Cmul; simpl; f_equal; ring.
Qed.

Lemma run_identity (gates : list (Instruction R)) :
  (forall g psi, In g gates -> apply_instruction g psi = psi) ->
  forall psi, run gates psi = psi.
Proof.
  unfold run. induction gates as [|g gates IH]; intros H psi; simpl; [reflexivity|].
  rewrite (H g psi (or_introl eq_refl)). apply IH.
  intros g' psi' Hg. apply H. now right.
Qed.

Lemma run_mixer_zero (n : nat) (psi : State) :
  run ([Barrier (Py.range n)]
       ++ map (RXGate (2 * 0)) (Py.range n)
       ++ map (fun i => Measure i i) (Py.range n)) psi = psi.
Proof.
  apply run_identity. intros g s Hg.
  apply in_app_or in Hg as [[<- | []] | Hg]; [reflexivity|].
  apply in_app_or in Hg as [Hg | Hg]; apply in_map_iff in Hg as (q & <- & _).
  - apply rx_zero.
  - reflexivity.
Qed.

(** The run of the ansatz, layer by layer. *)
Lemma run_ansatz (n : nat) (edges : list (Edge R)) (gamma beta : R) (psi : State) :
  run (ansatz_gates n edges gamma beta) psi
  = run ([Barrier (Py.range n)]
         ++ map (RXGate (2 * beta)) (Py.range n)
         ++ map (fun i => Measure i i) (Py.range n))
        (fold_left (fun s e => diag (edge_phase gamma e) s) edges
           (run [Barrier (Py.range n)] (run (map HGate (Py.range n)) psi))).
Proof.
  unfold ansatz_gates.
  rewrite (run_app (map HGate (Py.range n))).
  rewrite (run_app [Barrier (Py.range n)]).
  rewrite (run_app (flat_map (edge_gates gamma) edges)).
  now rewrite run_cost_layer.
Qed.

(** With [beta = 0] the measurement distribution of the ansatz is the same
    for every graph and every [gamma]: without the mixing rotations the
    circuit tells nothing about the edges. *)
Theorem ansatz_distribution_beta_zero (n : nat) (edges edges' : list (Edge R))
    (gamma gamma' : R) (x : Basis) :
  measurement_distribution (create_qaoa_circuit (QAOA.mk n) edges gamma 0) x
  = measurement_distribution (create_qaoa_circuit (QAOA.mk n) edges' gamma' 0) x.
Proof.
  unfold measurement_distribution, final_state.
  rewrite !create_qaoa_circuit_data.
  rewrite !(proj1 (create_qaoa_circuit_shape n _ _ 0)).
  rewrite !run_ansatz, !run_mixer_zero, !cost_layer_norm. reflexivity.
Qed.

Lemma edge_phase_gamma_zero (e : Edge R) (x : Basis) : edge_phase 0 e x = C1.
Proof.
  destruct e as [[k l] w]. unfold edge_phase, phase_if.
  replace (0 * w) with 0 by ring. replace (-2 * 0 * w) with 0 by ring.
  unfold cis. rewrite cos_0, sin_0.
  destruct (x k), (x l); unfold Cmul, C1; simpl; f_equal; ring.
Qed.

Lemma cost_layer_gamma_zero (edges : list (Edge R)) :
  forall psi,
    fold_left (fun s e => diag (edge_phase 0 e) s) edges psi = psi.
Proof.
  induction edges as [|e edges IH]; intros psi; simpl; [reflexivity|].
  rewrite IH. apply functional_extensionality; intros x.
  unfold diag. now rewrite edge_phase_gamma_zero, Cmul_1_l.
Qed.

(** With [gamma = 0] the cost layer is the identity: the final state of the
    ansatz is that of the circuit built for the graph without edges. *)
Theorem ansatz_state_gamma_zero (n : nat) (edges : list (Edge R)) (beta : R) :
  final_state (create_qaoa_circuit (QAOA.mk n) edges 0 beta)
  = final_state (create_qaoa_circuit (QAOA.mk n) [] 0 beta).
Proof.
  unfold final_state.
  rewrite !create_qaoa_circuit_data.
  rewrite !(proj1 (create_qaoa_circuit_shape n _ 0 beta)).
  rewrite !run_ansatz. now rewrite !cost_layer_gamma_zero.
Qed.

End AnsatzAngles.

(** ** Loading benchmark files *)

Section LoaderFacts.
Import Circuit BenchmarkLoader.
Local Open Scope string_scope.
Context {R ParseError : Type}.
Variable from_qasm_file : string -> ParseError + QuantumCircuit R.

Lemma before_dot_no_dot (s : string) : contains "." (before_dot s) = false.
Proof.
  induction s as [|c s IH]; simpl; [reflexivity|].
  destruct (Ascii.eqb c ".") eqn:E; simpl; [reflexivity|]. now rewrite E.
Qed.

Lemma before_dot_contains (c : ascii) (s : string) :
  contains c s = false -> contains c (before_dot s) = false.
Proof.
  induction s as [|d s IH]; simpl; [reflexivity|]. intros H.
  apply orb_false_iff in H as [Hd Hs].
  destruct (Ascii.eqb d "."); simpl; [reflexivity|]. now rewrite Hd, IH.
Qed.

Lemma basename_no_slash (p : string) : contains "/" (basename p) = false.
Proof.
  induction p as [|c p IH]; simpl; [reflexivity|].
  destruct (contains "/" p) eqn:Hp; [assumption|].
  destruct (Ascii.eqb c "/") eqn:Hc; [assumption|]. simpl. now rewrite Hc, Hp.
Qed.

Lemma benchmark_name_plain (qasm_file : string) :
  contains "." (benchmark_name qasm_file) = false /\
  contains "/" (benchmark_name qasm_file) = false.
Proof.
  unfold benchmark_name. split; [apply before_dot_no_dot|].
  apply before_dot_contains, basename_no_slash.
Qed.

Lemma dict_set_in {V : Type} (d : list (string * V)) (key : string) (value : V) :
  forall k v, In (k, v) (dict_set d key value) ->
              (k = key /\ v = value) \/ In (k, v) d.
Proof.
  induction d as [|[k0 v0] d IH]; intros k v H; simpl in H.
  - destruct H as [[= <- <-] | []]. now left.
  - destruct (String.eqb_spec k0 key) as [-> | Hne].
    + destruct H as [[= <- <-] | H]; [now left|right; now right].
    + destruct H as [[= <- <-] | H]; [right; now left|].
      destruct (IH k v H) as [Hnew | Hold]; [now left|right; now right].
Qed.

Lemma dict_set_keys {V : Type} (d : list (string * V)) (key : string) (value : V) :
  forall k, In k (map fst (dict_set d key value)) -> k = key \/ In k (map fst d).
Proof.
  intros k H. apply in_map_iff in H as ([k' v'] & <- & Hin).
  destruct (dict_set_in d key value k' v' Hin) as [[-> _] | Hold]; [now left|].
  right. apply in_map_iff. now exists (k', v').
Qed.

Lemma dict_set_nodup {V : Type} (d : list (string * V)) (key : string) (value : V) :
  NoDup (map fst d) -> NoDup (map fst (dict_set d key value)).
Proof.
  induction d as [|[k0 v0] d IH]; intros H; simpl.
  - constructor; [intros []|constructor].
  - inversion H as [|? ? Hnotin Hd]; subst.
    destruct (String.eqb_spec k0 key) as [-> | Hne]; simpl.
    + now constructor.
    + constructor; [|now apply IH].
      intros Hin. apply dict_set_keys in Hin as [-> | Hin]; contradiction.
Qed.

Lemma dict_get_set_same {V : Type} (d : list (string * V)) (key : string) (value : V) :
  dict_get (dict_set d key value) key = Some value.
Proof.
  induction d as [|[k0 v0] d IH]; simpl.
  - now rewrite String.eqb_refl.
  - destruct (String.eqb_spec k0 key) as [-> | Hne]; simpl.
    + now rewrite String.eqb_refl.
    + destruct (String.eqb_spec k0 key); [contradiction|assumption].
Qed.

Lemma dict_get_set_other {V : Type} (d : list (string * V)) (key k : string)
    (value : V) :
  k <> key -> dict_get (dict_set d key value) k = dict_get d k.
Proof.
  intros Hk. induction d as [|[k0 v0] d IH]; simpl.
  - destruct (String.eqb_spec key k); [congruence|reflexivity].
  - destruct (String.eqb_spec k0 key) as [-> | Hne]; simpl.
    + destruct (String.eqb_spec key k); [congruence|reflexivity].
    + destruct (String.eqb_spec k0 k); [reflexivity|assumption].
Qed.

(** The loop keeps the keys distinct and plain, and every circuit named
    by its key. *)
Lemma load_loop_well_named (qasm_files : list string) :
  forall benchmarks result,
    (NoDup (map fst benchmarks) /\
     forall key circuit, In (key, circuit) benchmarks ->
       name circuit = Some key /\
       contains "." key = false /\ contains "/" key = false) ->
    load_loop from_qasm_file qasm_files benchmarks = inr result ->
    NoDup (map fst result) /\
    forall key circuit, In (key, circuit) result ->
      name circuit = Some key /\
      contains "." key = false /\ contains "/" key = false.
Proof.
  induction qasm_files as [|f files IH]; intros benchmarks result Hw Hload;
    simpl in Hload.
  - now injection Hload as <-.
  - destruct (from_qasm_file f) as [err | circuit]; [discriminate|].
    apply (IH _ _) in Hload; [assumption|].
    destruct Hw as [Hnd Hall]. split; [now apply dict_set_nodup|].
    intros key c Hin. apply dict_set_in in Hin as [[-> ->] | Hold].
    + split; [reflexivity|apply benchmark_name_plain].
    + now apply Hall.
Qed.

(** In the dictionary the loader returns, the keys are distinct and contain
    neither a dot nor a slash, and every circuit carries its key as its
    name. *)
Theorem load_qasm_benchmarks_names
    (self_benchmarks : list (string * QuantumCircuit R))
    (qasm_files : list string) (result : list (string * QuantumCircuit R)) :
  fst (load_qasm_benchmarks from_qasm_file self_benchmarks qasm_files)
  = inr result ->
  NoDup (map fst result) /\
  forall key circuit, In (key, circuit) result ->
    name circuit = Some key /\
    contains "." key = false /\ contains "/" key = false.
Proof.
  unfold load_qasm_benchmarks. intros H.
  destruct (load_loop from_qasm_file qasm_files []) as [err | d] eqn:Hload;
    simpl in H; [discriminate|]. injection H as <-.
  apply (load_loop_well_named qasm_files [] d); [|assumption].
  split; [constructor|intros k c []].
Qed.

Lemma load_loop_app (files1 files2 : list string) :
  forall benchmarks,
    load_loop from_qasm_file (files1 ++ files2) benchmarks
    = match load_loop from_qasm_file files1 benchmarks with
      | inl err => inl err
      | inr d => load_loop from_qasm_file files2 d
      end.
Proof.
  induction files1 as [|f files1 IH]; intros benchmarks; simpl; [reflexivity|].
  destruct (from_qasm_file f); [reflexivity|apply IH].
Qed.

Lemma load_loop_keeps (files : list string) (key : string) :
  (forall g, In g files -> benchmark_name g <> key) ->
  forall benchmarks result,
    load_loop from_qasm_file files benchmarks = inr result ->
    dict_get result key = dict_get benchmarks key.
Proof.
  induction files as [|f files IH]; intros Hother benchmarks result Hload;
    simpl in Hload.
  - now injection Hload as <-.
  - destruct (from_qasm_file f) as [err | circuit]; [discriminate|].
    rewrite (IH (fun g Hg => Hother g (or_intror Hg)) _ _ Hload).
    apply dict_get_set_other. intros Heq. symmetry in Heq.
    now apply (Hother f (or_introl eq_refl)).
Qed.

(** Files whose names agree up to the first dot share one key, and the last
    of them wins: the entry of a key is the circuit of the last file that
    produced it, renamed to the key. *)
Theorem load_qasm_benchmarks_last_wins
    (self_benchmarks : list (string * QuantumCircuit R))
    (before after : list string) (qasm_file : string)
    (circuit : QuantumCircuit R) (result : list (string * QuantumCircuit R)) :
  from_qasm_file qasm_file = inr circuit ->
  (forall g, In g after -> benchmark_name g <> benchmark_name qasm_file) ->
  fst (load_qasm_benchmarks from_qasm_file self_benchmarks
         (before ++ qasm_file :: after)) = inr result ->
  dict_get result (benchmark_name qasm_file)
  = Some (set_name circuit (benchmark_name qasm_file)).
Proof.
  unfold load_qasm_benchmarks. intros Hparse Hafter H.
  destruct (load_loop from_qasm_file (before ++ qasm_file :: after) [])
    as [err | d] eqn:Hload; simpl in H; [discriminate|]. injection H as <-.
  rewrite load_loop_app in Hload.
  destruct (load_loop from_qasm_file before []) as [err | d0]; [discriminate|].
  simpl in Hload. rewrite Hparse in Hload.
  rewrite (load_loop_keeps after _ Hafter _ _ Hload).
  apply dict_get_set_same.
Qed.

End LoaderFacts.

Lemma load_qasm_benchmarks_names_witness :
  fst (BenchmarkLoader.load_qasm_benchmarks BenchmarkExamples.parse_chain3 []
         ["bench/a.qasm"; "bench/b.1.qasm"]%string)
  = inr [("a"%string, BenchmarkLoader.set_name RouterExamples.chain3 "a");
         ("b"%string, BenchmarkLoader.set_name RouterExamples.chain3 "b")]
  /\ NoDup ["a"; "b"]%string.
Proof.
  split; [reflexivity|].
  exact (proj1 (load_qasm_benchmarks_names BenchmarkExamples.parse_chain3 []
                  ["bench/a.qasm"; "bench/b.1.qasm"]%string _ eq_refl)).
Defined.

Lemma load_qasm_benchmarks_last_wins_witness :
  BenchmarkLoader.benchmark_name "bench/b.2.qasm" = "b"%string /\
  exists result,
    fst (BenchmarkLoader.load_qasm_benchmarks BenchmarkExamples.parse_chain3 []
           ["bench/b.1.qasm"; "bench/b.2.qasm"; "bench/a.qasm"]%string)
    = inr result /\
    BenchmarkLoader.dict_get result "b"
    = Some (BenchmarkLoader.set_name RouterExamples.chain3 "b").
Proof.
  split; [reflexivity|]. eexists. split; [reflexivity|].
  apply (load_qasm_benchmarks_last_wins BenchmarkExamples.parse_chain3 []
           ["bench/b.1.qasm"%string] ["bench/a.qasm"%string] "bench/b.2.qasm"
           RouterExamples.chain3).
  - reflexivity.
  - intros g [<- | []]. discriminate.
  - reflexivity.
Defined.

Lemma compare_circuits_swap_witness :
  In ("size_diff"%string, @CircuitBenchmarker.Diff Q 1)
     (CircuitBenchmarker.compare_circuits
        (fun _ => 0) (fun _ => 0) (fun qc => Z.of_nat (List.length (Circuit.data qc)))
        (fun _ => []) RouterExamples.chain3 (Circuit.cx 1 2 RouterExamples.chain3))
  /\ In ("size_diff"%string, @CircuitBenchmarker.Diff Q (- (1)))
        (CircuitBenchmarker.compare_circuits
           (fun _ => 0) (fun _ => 0) (fun qc => Z.of_nat (List.length (Circuit.data qc)))
           (fun _ => []) (Circuit.cx 1 2 RouterExamples.chain3) RouterExamples.chain3)
  /\ exists z,
       @CircuitBenchmarker.Diff Q (3 - 2) = @CircuitBenchmarker.Diff Q z.
Proof.
  pose proof (compare_circuits_swap
                (fun _ => 0) (fun _ => 0)
                (fun qc => Z.of_nat (List.length (Circuit.data qc)))
                (fun _ => []) RouterExamples.chain3
                (Circuit.cx 1 2 RouterExamples.chain3)) as H.
  cbv zeta in H. destruct H as (Ha & Hb & Hc).
  split; [|split].
  - apply (Ha "size"%string 2 3); simpl; auto 10.
  - apply (Hb "size_diff"%string 1). simpl. auto 10.
  - apply (Hc "size"%string); simpl; auto 10.
Defined.
